(** * Emergency response simulator: a shallow embedding of the Python sources

    The development follows the layout of [src/server]:
    - [nx]                  the part of networkx's [DiGraph] the code relies on;
    - [vehicle_simulation]  [EmergencyVehicle], [PoliceCar], [VehicleSimulator];
    - [vehicle_controller]  [VehicleController] (dispatch and status history);
    - [api]                 the [/api/dispatch-vehicle] handler;
    - [data_processing]     [create_road_network_graph].

    Conventions.  Python floats are idealised as real numbers ([R]): [x ** 2]
    is [x ^ 2] and [(...) ** 0.5] is [sqrt].  A method that mutates [self] is a
    function from the object to the mutated object paired with the exception
    it raised, if any ([None] = normal return); fields written before the
    [raise] stay written.  Wall-clock stamps ([last_updated]) and file writes
    are left out; the capture time stamp is an argument. *)

From Stdlib Require Import Reals List String Bool Arith ZArith Lia Lra Psatz.
From Stdlib Require Import DecimalString DecimalNat.
Import ListNotations.
Open Scope string_scope.
Open Scope R_scope.

(** ** Python values shared by all modules *)

Definition Point : Type := (R * R)%type.

Inductive exn : Type :=
| TypeError (msg : string)
| KeyError (key : string)
| IndexError
| ZeroDivisionError
| ValueError (msg : string)
| AttributeError (attr : string)
| NodeNotFound
| NetworkXError
| NetworkXNoPath
| NetworkXPointlessConcept
| HTTPException (status_code : nat) (detail : string).

(** [a <= b] and [a < b] on floats, as booleans. *)
Definition Rleb (a b : R) : bool := if Rle_dec a b then true else false.
Definition Rltb (a b : R) : bool := if Rlt_dec a b then true else false.
Definition Reqb (a b : R) : bool := if Req_dec_T a b then true else false.

(** [((px - qx)**2 + (py - qy)**2)**0.5]. *)
Definition hypot (dx dy : R) : R := sqrt (dx ^ 2 + dy ^ 2).

(** [str(n)] for a non-negative int. *)
Definition str (n : nat) : string := NilEmpty.string_of_uint (Nat.to_uint n).

(** ** networkx: the directed graph the code builds and reads *)
Module nx.

Record node_data : Type := mk_node {
  node_x : R;
  node_y : R;
  node_type : string }.

(** The geometry is kept as the coordinate list of the WKT line string. *)
Record edge_data : Type := mk_edge {
  edge_road_id : nat;
  edge_length : R;
  edge_speed : R;
  edge_travel_time : R;
  edge_geometry : list Point }.

(** Nodes and edges in insertion order, as the dicts of a [DiGraph] keep
    them.  A node that [add_edge] had to create has no attributes. *)
Record DiGraph : Type := mk_graph {
  nodes : list (string * option node_data);
  edges : list ((string * string) * edge_data) }.

Definition empty : DiGraph := mk_graph [] [].

Definition edge_key_eqb (k k' : string * string) : bool :=
  String.eqb (fst k) (fst k') && String.eqb (snd k) (snd k').

(** Dict assignment [d[k] = v]: in place when the key is present, at the
    end otherwise. *)
Fixpoint assign {K V : Type} (eqb : K -> K -> bool) (k : K) (v : V)
    (d : list (K * V)) : list (K * V) :=
  match d with
  | [] => [(k, v)]
  | (k', v') :: d' =>
      if eqb k k' then (k, v) :: d' else (k', v') :: assign eqb k v d'
  end.

Fixpoint get {K V : Type} (eqb : K -> K -> bool) (k : K)
    (d : list (K * V)) : option V :=
  match d with
  | [] => None
  | (k', v') :: d' => if eqb k k' then Some v' else get eqb k d'
  end.

Definition has_node (G : DiGraph) (n : string) : bool :=
  match get String.eqb n (nodes G) with Some _ => true | None => false end.

(** [G.add_node(n, x=.., y=.., type=..)]. *)
Definition add_node (G : DiGraph) (n : string) (d : node_data) : DiGraph :=
  mk_graph (assign String.eqb n (Some d) (nodes G)) (edges G).

(** What [add_edge] does to an endpoint: created bare when unknown. *)
Definition touch_node (n : string) (ns : list (string * option node_data))
    : list (string * option node_data) :=
  match get String.eqb n ns with
  | Some _ => ns
  | None => ns ++ [(n, None)]
  end.

(** [G.add_edge(u, v, road_id=.., length=.., speed=.., travel_time=..,
    geometry=..)]: all five attributes are (re)written. *)
Definition add_edge (G : DiGraph) (u v : string) (d : edge_data) : DiGraph :=
  mk_graph (touch_node v (touch_node u (nodes G)))
           (assign edge_key_eqb (u, v) d (edges G)).

(** [G[u][v]]. *)
Definition get_edge (G : DiGraph) (u v : string) : option edge_data :=
  get edge_key_eqb (u, v) (edges G).

(** [graph.nodes[n]] followed by [data['x'], data['y']]: [KeyError] when
    the node, or the attribute, is missing. *)
Definition node_xy (G : DiGraph) (n : string) : Point + exn :=
  match get String.eqb n (nodes G) with
  | Some (Some d) => inl (node_x d, node_y d)
  | Some None => inr (KeyError "x")
  | None => inr (KeyError n)
  end.

(** [list(graph.neighbors(n))]: the successors, in edge insertion order. *)
Definition neighbors (G : DiGraph) (n : string) : list string :=
  map (fun e => snd (fst e))
      (filter (fun e => String.eqb (fst (fst e)) n) (edges G)).

Definition number_of_nodes (G : DiGraph) : nat := List.length (nodes G).
Definition number_of_edges (G : DiGraph) : nat := List.length (edges G).

End nx.

(** ** vehicle_simulation.py *)
Module vehicle_simulation.

Inductive Status : Type := idle | responding | returning | handling | patrolling.

Definition status_eqb (a b : Status) : bool :=
  match a, b with
  | idle, idle | responding, responding | returning, returning
  | handling, handling | patrolling, patrolling => true
  | _, _ => false
  end.

(** [status in [...]]. *)
Definition status_in (s : Status) (l : list Status) : bool :=
  existsb (status_eqb s) l.

(** The three subclasses of [EmergencyVehicle]. *)
Inductive VehicleClass : Type := FireTruck | Ambulance | PoliceCar.

Definition vehicle_type_of (c : VehicleClass) : string :=
  match c with
  | FireTruck => "fire_truck"
  | Ambulance => "ambulance"
  | PoliceCar => "police_car"
  end.

Definition max_speed_of (c : VehicleClass) : R :=
  match c with
  | FireTruck => 80
  | Ambulance => 90
  | PoliceCar => 120
  end.

Definition is_police (c : VehicleClass) : bool :=
  match c with PoliceCar => true | _ => false end.

(** One record for the class hierarchy: the patrol attributes exist on a
    [PoliceCar] only and are inert on the other classes. *)
Record Vehicle : Type := mk_vehicle {
  vehicle_id : string;
  class : VehicleClass;
  facility_id : Z;
  facility_name : string;
  facility_location : Point;
  status : Status;
  current_location : Point;
  destination : option Point;
  route_nodes : list string;
  route_geometry : list Point;
  route_index : nat;
  max_speed : R;
  current_speed : R;
  handling_start_time : option R;
  handling_duration : option R;
  patrol_nodes : list string;
  patrol_geometry : list Point;
  patrol_index : nat;
  patrol_speed : R }.

Definition vehicle_type (v : Vehicle) : string := vehicle_type_of (class v).

(** [EmergencyVehicle.__init__] followed by the subclass's [__init__]. *)
Definition new_vehicle (c : VehicleClass) (vid : string) (fid : Z)
    (fname : string) (floc : Point) : Vehicle :=
  mk_vehicle vid c fid fname floc idle floc None [] [] 0 (max_speed_of c) 0
             None None [] [] 0 40.

(** Attribute assignments. *)
Definition set_status (s : Status) (v : Vehicle) : Vehicle :=
  mk_vehicle (vehicle_id v) (class v) (facility_id v) (facility_name v)
    (facility_location v) s (current_location v) (destination v)
    (route_nodes v) (route_geometry v) (route_index v) (max_speed v)
    (current_speed v) (handling_start_time v) (handling_duration v)
    (patrol_nodes v) (patrol_geometry v) (patrol_index v) (patrol_speed v).

Definition set_current_location (p : Point) (v : Vehicle) : Vehicle :=
  mk_vehicle (vehicle_id v) (class v) (facility_id v) (facility_name v)
    (facility_location v) (status v) p (destination v)
    (route_nodes v) (route_geometry v) (route_index v) (max_speed v)
    (current_speed v) (handling_start_time v) (handling_duration v)
    (patrol_nodes v) (patrol_geometry v) (patrol_index v) (patrol_speed v).

Definition set_destination (d : option Point) (v : Vehicle) : Vehicle :=
  mk_vehicle (vehicle_id v) (class v) (facility_id v) (facility_name v)
    (facility_location v) (status v) (current_location v) d
    (route_nodes v) (route_geometry v) (route_index v) (max_speed v)
    (current_speed v) (handling_start_time v) (handling_duration v)
    (patrol_nodes v) (patrol_geometry v) (patrol_index v) (patrol_speed v).

Definition set_route_nodes (r : list string) (v : Vehicle) : Vehicle :=
  mk_vehicle (vehicle_id v) (class v) (facility_id v) (facility_name v)
    (facility_location v) (status v) (current_location v) (destination v)
    r (route_geometry v) (route_index v) (max_speed v)
    (current_speed v) (handling_start_time v) (handling_duration v)
    (patrol_nodes v) (patrol_geometry v) (patrol_index v) (patrol_speed v).

Definition set_route_geometry (g : list Point) (v : Vehicle) : Vehicle :=
  mk_vehicle (vehicle_id v) (class v) (facility_id v) (facility_name v)
    (facility_location v) (status v) (current_location v) (destination v)
    (route_nodes v) g (route_index v) (max_speed v)
    (current_speed v) (handling_start_time v) (handling_duration v)
    (patrol_nodes v) (patrol_geometry v) (patrol_index v) (patrol_speed v).

Definition set_route_index (i : nat) (v : Vehicle) : Vehicle :=
  mk_vehicle (vehicle_id v) (class v) (facility_id v) (facility_name v)
    (facility_location v) (status v) (current_location v) (destination v)
    (route_nodes v) (route_geometry v) i (max_speed v)
    (current_speed v) (handling_start_time v) (handling_duration v)
    (patrol_nodes v) (patrol_geometry v) (patrol_index v) (patrol_speed v).

Definition set_current_speed (s : R) (v : Vehicle) : Vehicle :=
  mk_vehicle (vehicle_id v) (class v) (facility_id v) (facility_name v)
    (facility_location v) (status v) (current_location v) (destination v)
    (route_nodes v) (route_geometry v) (route_index v) (max_speed v)
    s (handling_start_time v) (handling_duration v)
    (patrol_nodes v) (patrol_geometry v) (patrol_index v) (patrol_speed v).

Definition set_handling (start duration : R) (v : Vehicle) : Vehicle :=
  mk_vehicle (vehicle_id v) (class v) (facility_id v) (facility_name v)
    (facility_location v) (status v) (current_location v) (destination v)
    (route_nodes v) (route_geometry v) (route_index v) (max_speed v)
    (current_speed v) (Some start) (Some duration)
    (patrol_nodes v) (patrol_geometry v) (patrol_index v) (patrol_speed v).

Definition set_patrol_nodes (r : list string) (v : Vehicle) : Vehicle :=
  mk_vehicle (vehicle_id v) (class v) (facility_id v) (facility_name v)
    (facility_location v) (status v) (current_location v) (destination v)
    (route_nodes v) (route_geometry v) (route_index v) (max_speed v)
    (current_speed v) (handling_start_time v) (handling_duration v)
    r (patrol_geometry v) (patrol_index v) (patrol_speed v).

Definition set_patrol_geometry (g : list Point) (v : Vehicle) : Vehicle :=
  mk_vehicle (vehicle_id v) (class v) (facility_id v) (facility_name v)
    (facility_location v) (status v) (current_location v) (destination v)
    (route_nodes v) (route_geometry v) (route_index v) (max_speed v)
    (current_speed v) (handling_start_time v) (handling_duration v)
    (patrol_nodes v) g (patrol_index v) (patrol_speed v).

Definition set_patrol_index (i : nat) (v : Vehicle) : Vehicle :=
  mk_vehicle (vehicle_id v) (class v) (facility_id v) (facility_name v)
    (facility_location v) (status v) (current_location v) (destination v)
    (route_nodes v) (route_geometry v) (route_index v) (max_speed v)
    (current_speed v) (handling_start_time v) (handling_duration v)
    (patrol_nodes v) (patrol_geometry v) i (patrol_speed v).

(** The loop shared by [_update_route_geometry] and
    [_update_patrol_geometry]: the coordinates gathered so far, and the
    [KeyError] that stopped the loop, if any. *)
Fixpoint gather_geometry (graph : nx.DiGraph) (route : list string)
    (acc : list Point) : list Point * option exn :=
  match route with
  | [] => (acc, None)
  | node :: rest =>
      match nx.node_xy graph node with
      | inl p => gather_geometry graph rest (acc ++ [p])
      | inr e => (acc, Some e)
      end
  end.

Definition _update_route_geometry (graph : nx.DiGraph) (v : Vehicle)
    : Vehicle * option exn :=
  let (geom, e) := gather_geometry graph (route_nodes v) [] in
  (set_route_geometry geom v, e).

Definition start_response (destination : Point) (route : list string)
    (graph : nx.DiGraph) (v : Vehicle) : Vehicle * option exn :=
  let v := set_status responding v in
  let v := set_destination (Some destination) v in
  let v := set_route_nodes route v in
  let v := set_route_index 0 v in
  let v := set_current_speed (max_speed v) v in
  _update_route_geometry graph v.

Definition return_to_facility (route : list string) (graph : nx.DiGraph)
    (v : Vehicle) : Vehicle * option exn :=
  let v := set_status returning v in
  let v := set_destination (Some (facility_location v)) v in
  let v := set_route_nodes route v in
  let v := set_route_index 0 v in
  let v := set_current_speed (max_speed v * 0.7) v in
  _update_route_geometry graph v.

Definition arrive_at_facility (v : Vehicle) : Vehicle :=
  let v := set_status idle v in
  let v := set_current_location (facility_location v) v in
  let v := set_destination None v in
  let v := set_route_nodes [] v in
  let v := set_route_geometry [] v in
  set_current_speed 0 v.

Definition arrive_at_destination (current_simulated_time : R) (v : Vehicle)
    : Vehicle :=
  match status v with
  | responding =>
      let v := set_status handling v in
      let v := set_handling current_simulated_time 600 v in
      let v := set_current_speed 0 v in
      let v := set_route_nodes [] v in
      set_route_geometry [] v
  | returning => arrive_at_facility v
  | _ => v
  end.

(** The step shared by [update_movement] and [update_patrol]: snap to the
    target when it is within [max_distance], else move towards it. *)
Definition approach (loc target : Point) (max_distance : R)
    : (Point * bool) + exn :=
  let dx := fst target - fst loc in
  let dy := snd target - snd loc in
  let distance := hypot dx dy in
  if Rleb distance max_distance then inl (target, true)
  else if Reqb distance 0 then inr ZeroDivisionError
  else
    let ratio := max_distance / distance in
    inl ((fst loc + dx * ratio, snd loc + dy * ratio), false).

Definition update_movement (graph : nx.DiGraph) (simulated_time_step : R)
    (current_simulated_time : R) (v : Vehicle) : Vehicle * option exn :=
  if negb (status_in (status v) [responding; returning])
     || match route_nodes v with [] => true | _ => false end
  then (v, None)
  else if (List.length (route_geometry v) <=? route_index v)%nat
  then (* [self.arrive_at_destination()] lacks its argument. *)
    (v, Some (TypeError "arrive_at_destination() missing 1 required positional argument"))
  else
    match nth_error (route_geometry v) (route_index v) with
    | None => (v, Some IndexError)
    | Some target_pos =>
        let max_distance :=
          (current_speed v * 1000 / 3600) * simulated_time_step in
        match approach (current_location v) target_pos max_distance with
        | inr e => (v, Some e)
        | inl (p, reached) =>
            let v := set_current_location p v in
            let v := if reached then set_route_index (route_index v + 1) v
                     else v in
            if (List.length (route_geometry v) <=? route_index v)%nat
            then (arrive_at_destination current_simulated_time v, None)
            else (v, None)
        end
    end.

Definition _update_patrol_geometry (graph : nx.DiGraph) (v : Vehicle)
    : Vehicle * option exn :=
  let (geom, e) := gather_geometry graph (patrol_nodes v) [] in
  (set_patrol_geometry geom v, e).

Definition start_patrol (patrol : list string) (graph : nx.DiGraph)
    (v : Vehicle) : Vehicle * option exn :=
  if status_eqb (status v) idle then
    let v := set_status patrolling v in
    let v := set_patrol_nodes patrol v in
    match _update_patrol_geometry graph v with
    | (v, Some e) => (v, Some e)
    | (v, None) => (set_current_speed (patrol_speed v) v, None)
    end
  else (v, None).

Definition update_patrol (graph : nx.DiGraph) (simulated_time_step : R)
    (v : Vehicle) : Vehicle * option exn :=
  if status_eqb (status v) patrolling
     && match patrol_geometry v with [] => false | _ => true end
  then
    let max_distance :=
      (current_speed v * 1000 / 3600) * simulated_time_step in
    match nth_error (patrol_geometry v) (patrol_index v) with
    | None => (v, Some IndexError)
    | Some target_pos =>
        match approach (current_location v) target_pos max_distance with
        | inr e => (v, Some e)
        | inl (p, reached) =>
            let v := set_current_location p v in
            if reached
            then (set_patrol_index
                    ((patrol_index v + 1) mod List.length (patrol_geometry v)) v,
                  None)
            else (v, None)
        end
    end
  else (v, None).

Definition end_patrol (v : Vehicle) : Vehicle :=
  let v := set_status idle v in
  let v := set_patrol_nodes [] v in
  let v := set_patrol_geometry [] v in
  set_current_speed 0 v.

(** The dict of [get_state] (without [last_updated]). *)
Record VehicleState : Type := mk_state {
  state_vehicle_id : string;
  state_vehicle_type : string;
  state_facility_id : Z;
  state_facility_name : string;
  state_status : Status;
  state_location : Point;
  state_speed : R;
  state_route_nodes : list string }.

Definition get_state (v : Vehicle) : VehicleState :=
  mk_state (vehicle_id v) (vehicle_type v) (facility_id v) (facility_name v)
           (status v) (current_location v) (current_speed v) (route_nodes v).

(** *** VehicleSimulator *)

Record Facility : Type := mk_facility {
  facility_index : Z;
  facility_description : option string;
  facility_type : string;
  facility_geometry : Point }.

Record VehicleSimulator : Type := mk_simulator {
  graph : nx.DiGraph;
  facilities : list Facility;
  vehicles : list Vehicle;
  simulated_time : R;
  real_time_step : R;
  simulation_speed : R }.

Definition new_simulator (road_network_graph : nx.DiGraph)
    (facilities_data : list Facility) : VehicleSimulator :=
  mk_simulator road_network_graph facilities_data [] 0 1 100.

Definition set_vehicles (vs : list Vehicle) (s : VehicleSimulator)
    : VehicleSimulator :=
  mk_simulator (graph s) (facilities s) vs (simulated_time s)
               (real_time_step s) (simulation_speed s).

Definition set_simulated_time (t : R) (s : VehicleSimulator)
    : VehicleSimulator :=
  mk_simulator (graph s) (facilities s) (vehicles s) t
               (real_time_step s) (simulation_speed s).

(** The scan of [find_nearest_node]: [best] is [(min_distance,
    nearest_node)], [None] standing for [(inf, None)]. *)
Fixpoint nearest_scan (point : Point)
    (ns : list (string * option nx.node_data)) (best : option (R * string))
    : option (R * string) + exn :=
  match ns with
  | [] => inl best
  | (node, None) :: _ => inr (KeyError "x")
  | (node, Some data) :: rest =>
      let distance :=
        hypot (fst point - nx.node_x data) (snd point - nx.node_y data) in
      let closer :=
        match best with
        | None => true
        | Some (min_distance, _) => Rltb distance min_distance
        end in
      nearest_scan point rest (if closer then Some (distance, node) else best)
  end.

Definition find_nearest_node (s : VehicleSimulator) (point : Point)
    : option string + exn :=
  match nearest_scan point (nx.nodes (graph s)) None with
  | inl best => inl (option_map snd best)
  | inr e => inr e
  end.

(** [random.choice(seq)] reads the next draw of the generator. *)
Definition random_choice (draws : list nat) (seq : list string)
    : option string * list nat :=
  match draws with
  | [] => (nth_error seq 0, [])
  | d :: draws' => (nth_error seq (d mod List.length seq), draws')
  end.

Fixpoint patrol_walk (g : nx.DiGraph) (max_nodes : nat)
    (current_node : string) (draws : list nat) : list string * list nat :=
  match max_nodes with
  | O => ([], draws)
  | S k =>
      match random_choice draws (nx.neighbors g current_node) with
      | (None, draws') => ([], draws)
      | (Some next, draws') =>
          let (rest, draws'') := patrol_walk g k next draws' in
          (next :: rest, draws'')
      end
  end.

Definition generate_patrol_route (s : VehicleSimulator)
    (start_location : Point) (draws : list nat)
    : (list string * list nat) + exn :=
  match find_nearest_node s start_location with
  | inr e => inr e
  | inl None => inr NetworkXError
  | inl (Some current_node) => inl (patrol_walk (graph s) 10 current_node draws)
  end.

(** [sub in s]. *)
Fixpoint contains (sub s : string) : bool :=
  String.prefix sub s
  || match s with
     | EmptyString => false
     | String _ s' => contains sub s'
     end.

Definition facility_class (facility_type : string) : option (VehicleClass * nat) :=
  if contains "Fire" facility_type then Some (FireTruck, 1%nat)
  else if contains "Ambulance" facility_type || contains "Paramedic" facility_type
  then Some (Ambulance, 4%nat)
  else if contains "Police" facility_type then Some (PoliceCar, 5%nat)
  else None.

Definition id_prefix (c : VehicleClass) : string :=
  match c with
  | FireTruck => "FT-"
  | Ambulance => "AMB-"
  | PoliceCar => "POL-"
  end.

Definition facility_name_of (f : Facility) : string :=
  match facility_description f with
  | Some d => d
  | None => facility_type f
  end.

(** The state [initialize_vehicles] threads through its loops. *)
Record InitState : Type := mk_init {
  init_sim : VehicleSimulator;
  init_next_id : nat;
  init_draws : list nat }.

(** The inner [for i in range(n)] loop for one facility. *)
Fixpoint assign_vehicles (f : Facility) (c : VehicleClass) (n : nat)
    (st : InitState) : InitState * option exn :=
  match n with
  | O => (st, None)
  | S k =>
      let s := init_sim st in
      let floc := facility_geometry f in
      let v := new_vehicle c (id_prefix c ++ str (init_next_id st))
                 (facility_index f) (facility_name_of f) floc in
      if is_police c then
        let s1 := set_vehicles (vehicles s ++ [v]) s in
        match generate_patrol_route s1 floc (init_draws st) with
        | inr e => (mk_init s1 (S (init_next_id st)) (init_draws st), Some e)
        | inl (patrol, draws') =>
            let (v', e) := start_patrol patrol (graph s) v in
            let st' := mk_init (set_vehicles (vehicles s ++ [v']) s)
                         (S (init_next_id st)) draws' in
            match e with
            | Some e => (st', Some e)
            | None => assign_vehicles f c k st'
            end
        end
      else
        assign_vehicles f c k
          (mk_init (set_vehicles (vehicles s ++ [v]) s)
                   (S (init_next_id st)) (init_draws st))
  end.

Fixpoint initialize_loop (fs : list Facility) (st : InitState)
    : InitState * option exn :=
  match fs with
  | [] => (st, None)
  | f :: rest =>
      match facility_class (facility_type f) with
      | None => initialize_loop rest st
      | Some (c, n) =>
          match assign_vehicles f c n st with
          | (st', Some e) => (st', Some e)
          | (st', None) => initialize_loop rest st'
          end
      end
  end.

Definition initialize_vehicles (s : VehicleSimulator) (draws : list nat)
    : (VehicleSimulator * list nat) * option exn :=
  let (st, e) := initialize_loop (facilities s) (mk_init s 1 draws) in
  ((init_sim st, init_draws st), e).

Fixpoint get_vehicle_by_id (vs : list Vehicle) (vid : string)
    : option Vehicle :=
  match vs with
  | [] => None
  | v :: rest =>
      if String.eqb (vehicle_id v) vid then Some v
      else get_vehicle_by_id rest vid
  end.

(** Truthiness of an optional [str] / [int] argument. *)
Definition truthy_str (o : option string) : option string :=
  match o with
  | Some s => if String.eqb s "" then None else Some s
  | None => None
  end.

Definition truthy_int (o : option Z) : option Z :=
  match o with
  | Some z => if Z.eqb z 0 then None else Some z
  | None => None
  end.

Definition get_available_vehicles (s : VehicleSimulator)
    (vehicle_type_arg : option string) (facility_id_arg : option Z)
    : list Vehicle :=
  let vs := vehicles s in
  let vs :=
    match truthy_str vehicle_type_arg with
    | Some t => filter (fun v => String.eqb (vehicle_type v) t) vs
    | None => vs
    end in
  let vs :=
    match truthy_int facility_id_arg with
    | Some f => filter (fun v => Z.eqb (facility_id v) f) vs
    | None => vs
    end in
  filter (fun v => negb (status_in (status v) [responding; handling])) vs.

Section Loop.

(** [nx.shortest_path(graph, source=.., target=.., weight="travel_time")]
    is an external algorithm: the route it returns, or the exception it
    raises ([NetworkXNoPath], [NodeNotFound]). *)
Variable shortest_path :
  nx.DiGraph -> option string -> option string -> list string + exn.

(** The body of [for vehicle in self.vehicles] in [simulation_loop]. *)
Definition step_vehicle (s : VehicleSimulator) (simulated_time_step : R)
    (draws : list nat) (v : Vehicle) : (Vehicle * list nat) * option exn :=
  if status_in (status v) [responding; returning] then
    let (v', e) := update_movement (graph s) simulated_time_step
                     (simulated_time s) v in
    ((v', draws), e)
  else if is_police (class v) && status_eqb (status v) patrolling then
    let (v', e) := update_patrol (graph s) simulated_time_step v in
    ((v', draws), e)
  else if status_eqb (status v) handling then
    match handling_start_time v, handling_duration v with
    | Some start, Some duration =>
        if Rleb (start + duration) (simulated_time s) then
          match find_nearest_node s (current_location v) with
          | inr e => ((v, draws), Some e)
          | inl current_node =>
              match find_nearest_node s (facility_location v) with
              | inr e => ((v, draws), Some e)
              | inl facility_node =>
                  match shortest_path (graph s) current_node facility_node with
                  | inr e => ((v, draws), Some e)
                  | inl route_back =>
                      let (v', e) := return_to_facility route_back (graph s) v in
                      ((v', draws), e)
                  end
              end
          end
        else ((v, draws), None)
    | _, _ => ((v, draws), Some (AttributeError "handling_start_time"))
    end
  else if status_eqb (status v) idle && is_police (class v) then
    match generate_patrol_route s (facility_location v) draws with
    | inr e => ((v, draws), Some e)
    | inl (patrol, draws') =>
        let (v', e) := start_patrol patrol (graph s) v in
        ((v', draws'), e)
    end
  else ((v, draws), None).

(** The [for] loop over the fleet; an exception ends it where it is. *)
Fixpoint step_vehicles (s : VehicleSimulator) (simulated_time_step : R)
    (draws : list nat) (vs : list Vehicle)
    : (list Vehicle * list nat) * option exn :=
  match vs with
  | [] => (([], draws), None)
  | v :: rest =>
      match step_vehicle s simulated_time_step draws v with
      | ((v', draws'), Some e) => ((v' :: rest, draws'), Some e)
      | ((v', draws'), None) =>
          match step_vehicles s simulated_time_step draws' rest with
          | ((rest', draws''), e) => ((v' :: rest', draws''), e)
          end
      end
  end.

(** One iteration of [while self.simulation_running]; an exception ends
    the thread before simulated time advances. *)
Definition simulation_tick (s : VehicleSimulator) (draws : list nat)
    : (VehicleSimulator * list nat) * option exn :=
  let simulated_time_step := real_time_step s * simulation_speed s in
  match step_vehicles s simulated_time_step draws (vehicles s) with
  | ((vs, draws'), Some e) => ((set_vehicles vs s, draws'), Some e)
  | ((vs, draws'), None) =>
      ((set_simulated_time (simulated_time s + simulated_time_step)
          (set_vehicles vs s), draws'), None)
  end.

End Loop.

End vehicle_simulation.

(** ** vehicle_controller.py *)
Module vehicle_controller.
Import vehicle_simulation.

Record Entry : Type := mk_entry {
  timestamp : string;
  entry_vehicles : list VehicleState }.

Record VehicleController : Type := mk_controller {
  simulator : VehicleSimulator;
  status_history : list Entry }.

(** [l[-n:]] for [n > 0]. *)
Definition last_n {A : Type} (n : nat) (l : list A) : list A :=
  skipn (List.length l - n) l.

(** [now] is [datetime.utcnow().isoformat() + "Z"]. *)
Definition _capture_status (now : string) (c : VehicleController)
    : VehicleController :=
  let vehicle_states := map get_state (vehicles (simulator c)) in
  let entry := mk_entry now vehicle_states in
  let history := (status_history c ++ [entry])%list in
  let history :=
    if (1440 <? List.length history)%nat then last_n 1440 history
    else history in
  mk_controller (simulator c) history.

(** The effect of mutating the object [get_vehicle_by_id] returned: the
    first vehicle of the fleet with that id is the one that changes. *)
Fixpoint store_vehicle (vid : string) (v' : Vehicle) (vs : list Vehicle)
    : list Vehicle :=
  match vs with
  | [] => []
  | v :: rest =>
      if String.eqb (vehicle_id v) vid then v' :: rest
      else v :: store_vehicle vid v' rest
  end.

Definition dispatch_vehicle (now : string) (vid : string)
    (destination : Point) (route : list string) (c : VehicleController)
    : VehicleController * option exn :=
  let sim := simulator c in
  match get_vehicle_by_id (vehicles sim) vid with
  | None => (c, Some (ValueError ("Vehicle " ++ vid ++ " not found")))
  | Some vehicle =>
      if status_in (status vehicle) [responding; handling]
      then (c, Some (ValueError ("Vehicle " ++ vid ++ " is not available")))
      else
        let (vehicle', e) := start_response destination route (graph sim) vehicle in
        let c' := mk_controller
                    (set_vehicles (store_vehicle vid vehicle' (vehicles sim)) sim)
                    (status_history c) in
        match e with
        | Some e => (c', Some e)
        | None => (_capture_status now c', None)
        end
  end.

End vehicle_controller.

(** ** api.py: POST /api/dispatch-vehicle *)
Module api.
Import vehicle_simulation vehicle_controller.

Record DispatchRequest : Type := mk_request {
  request_vehicle_type : string;
  destination_lon : R;
  destination_lat : R }.

Record DispatchResponse : Type := mk_response {
  message : string;
  response_vehicle_id : string;
  route_length : nat;
  estimated_time : R }.

(** [min(iterable, key=...)] keeps the first of the smallest items: an item
    replaces the current one only when its key is strictly smaller. *)
Fixpoint min_from {A : Type} (key : A -> R) (best : A) (l : list A) : A :=
  match l with
  | [] => best
  | a :: l' =>
      if Rltb (key a) (key best) then min_from key a l'
      else min_from key best l'
  end.

Definition distance_to (x y : R) (v : Vehicle) : R :=
  hypot (fst (current_location v) - x) (snd (current_location v) - y).

(** [str(e)] of the exceptions that can reach the handler's [except]. *)
Definition exn_detail (e : exn) : string :=
  match e with
  | TypeError m | ValueError m | KeyError m | AttributeError m => m
  | HTTPException _ d => d
  | IndexError => "list index out of range"
  | ZeroDivisionError => "float division by zero"
  | NodeNotFound => "node not found"
  | NetworkXError => "node is not in the graph"
  | NetworkXNoPath => "no path"
  | NetworkXPointlessConcept => "null graph"
  end.

Definition internal_error (e : exn) : exn := HTTPException 500 (exn_detail e).

(** [sum(graph.edges[route[i], route[i+1]]['travel_time'] for i in ...)]. *)
Fixpoint route_travel_time (g : nx.DiGraph) (route : list string) (acc : R)
    : R + exn :=
  match route with
  | u :: ((v :: _) as rest) =>
      match nx.get_edge g u v with
      | Some d => route_travel_time g rest (acc + nx.edge_travel_time d)
      | None => inr (KeyError v)
      end
  | _ => inl acc
  end.

Section Handler.

(** The projection EPSG:4326 -> EPSG:32618 and the shortest-path search
    are external. *)
Variable transformer_to_proj : R -> R -> Point.
Variable shortest_path :
  nx.DiGraph -> option string -> option string -> list string + exn.

Definition dispatch_vehicle (now : string) (request : DispatchRequest)
    (controller : VehicleController)
    : VehicleController * (DispatchResponse + exn) :=
  let simulator := simulator controller in
  let (x, y) :=
    transformer_to_proj (destination_lon request) (destination_lat request) in
  let available_vehicles :=
    get_available_vehicles simulator (Some (request_vehicle_type request)) None in
  match available_vehicles with
  | [] =>
      (controller,
       inr (HTTPException 404
              ("No available " ++ request_vehicle_type request ++ " vehicles")))
  | first :: others =>
      let closest_vehicle := min_from (distance_to x y) first others in
      match find_nearest_node simulator (current_location closest_vehicle) with
      | inr e => (controller, inr (internal_error e))
      | inl origin_node =>
          match find_nearest_node simulator (x, y) with
          | inr e => (controller, inr (internal_error e))
          | inl nearest_node =>
              match shortest_path (graph simulator) origin_node nearest_node with
              | inr NetworkXNoPath =>
                  (controller, inr (HTTPException 400 "No path available"))
              | inr e => (controller, inr (internal_error e))
              | inl route =>
                  match vehicle_controller.dispatch_vehicle now
                          (vehicle_id closest_vehicle) (x, y) route controller with
                  | (controller', Some e) => (controller', inr (internal_error e))
                  | (controller', None) =>
                      match route_travel_time (graph simulator) route 0 with
                      | inr e => (controller', inr (internal_error e))
                      | inl total =>
                          (controller',
                           inl (mk_response
                                  ("Closest " ++ request_vehicle_type request
                                   ++ " (" ++ vehicle_id closest_vehicle
                                   ++ ") dispatched")
                                  (vehicle_id closest_vehicle)
                                  (List.length route) total))
                      end
                  end
              end
          end
      end
  end.

End Handler.

End api.

(** ** data_processing.py: create_road_network_graph *)
Module data_processing.

(** [road.geometry]: a shapely [LineString] with its coordinates, or any
    other geometry (which the builder passes over). *)
Inductive Geometry : Type :=
| LineString (coords : list Point)
| OtherGeometry.

(** A row of [roads_gdf]; [speed_limit] is [None] for a missing value. *)
Record Road : Type := mk_road {
  road_id : nat;
  geometry : Geometry;
  speed_limit : option R;
  traffic_direction : string }.

(** A row of [junctions_gdf]. *)
Record Junction : Type := mk_junction {
  node_id : string;
  junction_geometry : Point }.

(** The loop state: the graph [G], the dict [junction_points] keyed by
    rounded coordinates, and [node_counter]. *)
Record BuildState : Type := mk_build {
  G : nx.DiGraph;
  junction_points : list (Point * string);
  node_counter : nat }.

Definition key_eqb (k k' : Point) : bool :=
  Reqb (fst k) (fst k') && Reqb (snd k) (snd k').

(** What the function prints, one constructor per [print]. *)
Inductive Line : Type :=
| Adding_junctions
| Creating_spatial_index
| Processing_roads
| Created_graph (n_nodes n_edges : nat)
| Warning_not_strongly_connected
| Largest_component (size n_nodes : nat).

Inductive BuildResult : Type :=
| Built (graph : nx.DiGraph) (printed : list Line)
| Raised (e : exn) (printed : list Line).

(** [speed_limit if speed_limit and speed_limit > 0 else 40.0]. *)
Definition speed_kph (road : Road) : R :=
  match speed_limit road with
  | Some s => if negb (Reqb s 0) && Rltb 0 s then s else 40
  | None => 40
  end.

(** The scan behind [junction_tree.query([[x, y]], k=1)]: the distance and
    index of the nearest junction, [best] being the nearest so far. *)
Fixpoint kd_scan (p : Point) (js : list Junction) (i : nat) (best : R * nat)
    : R * nat :=
  match js with
  | [] => best
  | j :: js' =>
      let d := hypot (fst p - fst (junction_geometry j))
                     (snd p - snd (junction_geometry j)) in
      kd_scan p js' (S i) (if Rltb d (fst best) then (d, i) else best)
  end.

Definition kd_query (junctions : list Junction) (p : Point)
    : option (R * nat) :=
  match junctions with
  | [] => None
  | j :: js =>
      Some (kd_scan p js 1%nat
              (hypot (fst p - fst (junction_geometry j))
                     (snd p - snd (junction_geometry j)), 0%nat))
  end.

Section Build.

(** [round(x, 2)] and the two connectivity queries of networkx
    ([is_strongly_connected], and the size of the largest of
    [strongly_connected_components]) are external. *)
Variable round2 : R -> R.
Variable is_strongly_connected : nx.DiGraph -> bool.
Variable largest_cc_len : nx.DiGraph -> nat.

Definition rounded_key (p : Point) : Point := (round2 (fst p), round2 (snd p)).

(** Step 1: [for _, junction in junctions_gdf.iterrows()]. *)
Fixpoint add_junctions (junctions : list Junction) (st : BuildState)
    : BuildState :=
  match junctions with
  | [] => st
  | junction :: rest =>
      let id := "J_" ++ node_id junction in
      let (x, y) := junction_geometry junction in
      add_junctions rest
        (mk_build (nx.add_node (G st) id (nx.mk_node x y "junction"))
                  (nx.assign key_eqb (rounded_key (x, y)) id (junction_points st))
                  (node_counter st))
  end.

(** Step 4: [for i, (x, y) in enumerate(coords)], from index [i] on;
    [n_coords] is [len(coords)]. *)
Fixpoint collect_road_nodes (junctions : list Junction) (n_coords : nat)
    (i : nat) (coords : list Point) (st : BuildState)
    (road_nodes : list (string * Point))
    : BuildState * list (string * Point) :=
  match coords with
  | [] => (st, road_nodes)
  | (x, y) :: rest =>
      let is_endpoint := (i =? 0)%nat || (i =? n_coords - 1)%nat in
      let key := rounded_key (x, y) in
      match nx.get key_eqb key (junction_points st) with
      | Some id =>
          collect_road_nodes junctions n_coords (S i) rest st
            (road_nodes ++ [(id, (x, y))])
      | None =>
          match kd_query junctions (x, y) with
          | None => (st, road_nodes)
          | Some (distance, junction_idx) =>
              if Rleb distance 1 then
                match nth_error junctions junction_idx with
                | None => (st, road_nodes)
                | Some junction =>
                    collect_road_nodes junctions n_coords (S i) rest st
                      (road_nodes ++ [("J_" ++ node_id junction, (x, y))])
                end
              else if is_endpoint
                      || (i mod Nat.max 1 (n_coords / 10) =? 0)%nat
              then
                let id := "R_" ++ str (node_counter st) in
                collect_road_nodes junctions n_coords (S i) rest
                  (mk_build
                     (nx.add_node (G st) id (nx.mk_node x y "road_vertex"))
                     (nx.assign key_eqb key id (junction_points st))
                     (S (node_counter st)))
                  (road_nodes ++ [(id, (x, y))])
              else
                collect_road_nodes junctions n_coords (S i) rest st road_nodes
          end
      end
  end.

(** The body of the edge loop for the segment [road_nodes[i]],
    [road_nodes[i + 1]]. *)
Definition add_segment (road : Road) (coords : list Point) (n_nodes i : nat)
    (start_node end_node : string * Point) (g : nx.DiGraph) : nx.DiGraph :=
  let (start_id, start_coords) := start_node in
  let (end_id, end_coords) := end_node in
  if String.eqb start_id end_id then g
  else
    let dx := fst end_coords - fst start_coords in
    let dy := snd end_coords - snd start_coords in
    let segment_length := hypot dx dy in
    let segment_geom :=
      if (i =? 0)%nat && (i + 1 =? n_nodes - 1)%nat then coords
      else [start_coords; end_coords] in
    let speed := speed_kph road in
    let travel_time := (segment_length / 1000) / (speed / 60) in
    let g := nx.add_edge g start_id end_id
               (nx.mk_edge (road_id road) segment_length speed travel_time
                           segment_geom) in
    if String.eqb (traffic_direction road) "Both directions" then
      match nx.get_edge g start_id end_id with
      | Some attrs => nx.add_edge g end_id start_id attrs
      | None => g
      end
    else g.

(** Step 5: [for i in range(len(road_nodes) - 1)], from index [i] on. *)
Fixpoint add_segments (road : Road) (coords : list Point) (n_nodes i : nat)
    (road_nodes : list (string * Point)) (g : nx.DiGraph) : nx.DiGraph :=
  match road_nodes with
  | start_node :: ((end_node :: _) as rest) =>
      add_segments road coords n_nodes (S i) rest
        (add_segment road coords n_nodes i start_node end_node g)
  | _ => g
  end.

(** The body of [for road_id, road in batch.iterrows()]. *)
Definition process_road (junctions : list Junction) (st : BuildState)
    (road : Road) : BuildState :=
  match geometry road with
  | OtherGeometry => st
  | LineString coords =>
      if (List.length coords <? 2)%nat then st
      else
        let (st', road_nodes) :=
          collect_road_nodes junctions (List.length coords) 0 coords st [] in
        if (List.length road_nodes <? 2)%nat then st'
        else
          mk_build
            (add_segments road coords (List.length road_nodes) 0 road_nodes (G st'))
            (junction_points st') (node_counter st')
  end.

(** Step 3.  The batches of 1000 rows only slice the iteration: the
    roads are visited once each, in order. *)
Definition process_roads (junctions : list Junction) (roads : list Road)
    (st : BuildState) : BuildState :=
  fold_left (process_road junctions) roads st.

Definition build_state (roads : list Road) (junctions : list Junction)
    : BuildState :=
  process_roads junctions roads
    (add_junctions junctions (mk_build nx.empty [] 0)).

Definition create_road_network_graph (roads : list Road)
    (junctions : list Junction) : BuildResult :=
  match junctions with
  | [] =>
      (* KDTree refuses the empty coordinate array. *)
      Raised (ValueError "Expected 2D array") [Adding_junctions; Creating_spatial_index]
  | _ =>
      let g := G (build_state roads junctions) in
      let printed :=
        [Adding_junctions; Creating_spatial_index; Processing_roads;
         Created_graph (nx.number_of_nodes g) (nx.number_of_edges g)] in
      if (nx.number_of_nodes g =? 0)%nat
      then Raised NetworkXPointlessConcept printed
      else if is_strongly_connected g then Built g printed
      else
        Built g
          (printed ++
           [Warning_not_strongly_connected;
            Largest_component (largest_cc_len g) (nx.number_of_nodes g)])
  end.

End Build.

(** *** Notions used to state the properties of the builder *)

(** A road whose line string has fewer than 2 coordinate points. *)
Definition degenerate (road : Road) : bool :=
  match geometry road with
  | LineString coords => (List.length coords <? 2)%nat
  | OtherGeometry => false
  end.



(** The node is in the graph with its coordinates. *)
Definition has_xy (g : nx.DiGraph) (n : string) : Prop :=
  exists d : nx.node_data, nx.get String.eqb n (nx.nodes g) = Some (Some d).

(** The attributes of an edge are those the edge loop computes for a
    segment of one of [roads]. *)
Definition edge_from (roads : list Road) (d : nx.edge_data) : Prop :=
  exists road : Road,
    In road roads /\
    nx.edge_road_id d = road_id road /\
    nx.edge_speed d = speed_kph road /\
    nx.edge_travel_time d = (nx.edge_length d / 1000) / (nx.edge_speed d / 60).

Definition edges_ok (roads : list Road) (g : nx.DiGraph) : Prop :=
  forall u v d, In ((u, v), d) (nx.edges g) ->
    edge_from roads d /\ has_xy g u /\ has_xy g v.

(** Every id the loops can hand out names a node with coordinates. *)
Definition ids_ok (junctions : list Junction) (st : BuildState) : Prop :=
  (forall k id, In (k, id) (junction_points st) -> has_xy (G st) id) /\
  (forall j, In j junctions -> has_xy (G st) ("J_" ++ node_id j)).

End data_processing.

(** ** The running system: what startup, the two loops and requests reach *)
Module system.
Import vehicle_simulation vehicle_controller.




(** A responding or returning vehicle that stands exactly on the last way
    point of its route, with the cursor on that way point. *)
Definition at_final_waypoint (v : Vehicle) : Prop :=
  status_in (status v) [responding; returning] = true /\
  route_nodes v <> [] /\
  nth_error (route_geometry v) (route_index v) = Some (current_location v) /\
  (route_index v + 1)%nat = List.length (route_geometry v).



Section Reach.

Variable transformer_to_proj : R -> R -> Point.
Variable shortest_path :
  nx.DiGraph -> option string -> option string -> list string + exn.
Variable road_network : nx.DiGraph.
Variable facilities_data : list Facility.

(** The controller states of a run: [create_vehicle_simulator] and
    [VehicleController(...)] at startup (whatever history the file
    held), then iterations of [simulation_loop], dispatch requests and
    status captures of the monitor, in any interleaving. *)
Inductive reachable : VehicleController -> Prop :=
| reach_startup (draws draws' : list nat) (sim : VehicleSimulator)
    (history : list Entry) :
    initialize_vehicles (new_simulator road_network facilities_data) draws
      = ((sim, draws'), None) ->
    reachable (mk_controller sim history)
| reach_tick (c : VehicleController) (draws draws' : list nat)
    (sim' : VehicleSimulator) (e : option exn) :
    reachable c ->
    simulation_tick shortest_path (simulator c) draws = ((sim', draws'), e) ->
    reachable (mk_controller sim' (status_history c))
| reach_dispatch (c c' : VehicleController) (now : string)
    (request : api.DispatchRequest) (r : api.DispatchResponse + exn) :
    reachable c ->
    api.dispatch_vehicle transformer_to_proj shortest_path now request c
      = (c', r) ->
    reachable c'
| reach_capture (c : VehicleController) (now : string) :
    reachable c ->
    reachable (_capture_status now c).

End Reach.

End system.

(** ** Concrete fleets, graphs and requests used to exercise the model *)
Module examples.
Import vehicle_simulation vehicle_controller.

(** One road node [N] at the origin. *)
Definition graph_N : nx.DiGraph :=
  nx.add_node nx.empty "N" (nx.mk_node 0 0 "junction").

(** A police car on patrol. *)
Definition patrol_car : Vehicle :=
  mk_vehicle "POL-1" PoliceCar 0 "Police Station" (0, 0) patrolling (3, 4)
             None [] [] 0 120 40 None None ["N"] [(0, 0)] 0 40.

(** A fire truck on its way home that stands on the only way point of its
    route; its station is 10 m east of it. *)
Definition truck_back : Vehicle :=
  mk_vehicle "FT-1" FireTruck 0 "Fire Station" (10, 0) returning (0, 0)
             (Some (10, 0)) ["N"] [(0, 0)] 0 80 56 None None [] [] 0 40.

(** The same truck half way between two way points. *)
Definition truck_midway : Vehicle :=
  mk_vehicle "FT-1" FireTruck 0 "Fire Station" (10, 0) responding (5, 0)
             (Some (0, 0)) ["M"; "N"] [(10, 0); (0, 0)] 1 80 80 None None
             [] [] 0 40.

(** The truck idle at its station. *)
Definition truck_idle : Vehicle :=
  new_vehicle FireTruck "FT-1" 0 "Fire Station" (10, 0).

(** A controller over [graph_N] whose fleet is the one vehicle [v]. *)
Definition controller_of (v : Vehicle) (history : list Entry)
    : VehicleController :=
  mk_controller (set_vehicles [v] (new_simulator graph_N [])) history.

(** Three idle ambulances 5 m, 2 m and 8 m east of the origin. *)
Definition ambulance_at (vid : string) (x : R) : Vehicle :=
  new_vehicle Ambulance vid 1 "Paramedic Post" (x, 0).

Definition three_ambulances : VehicleController :=
  mk_controller
    (set_vehicles
       [ambulance_at "AMB-1" 5; ambulance_at "AMB-2" 2; ambulance_at "AMB-3" 8]
       (new_simulator graph_N []))
    [].

(** Requests whose coordinates are already projected. *)
Definition plane : R -> R -> Point := fun lon lat => (lon, lat).

(** A path search that finds the one-node route from a node to itself. *)
Definition stay_put (g : nx.DiGraph) (source target : option string)
    : list string + exn :=
  match source with
  | Some n => inl [n]
  | None => inr NodeNotFound
  end.

(** Two junctions 100 m apart, and roads between them. *)
Definition junctions_AB : list data_processing.Junction :=
  [data_processing.mk_junction "A" (0, 0);
   data_processing.mk_junction "B" (100, 0)].

Definition road_AB : data_processing.Road :=
  data_processing.mk_road 0 (data_processing.LineString [(0, 0); (100, 0)])
    (Some 50) "Both directions".

Definition road_BA_one_way : data_processing.Road :=
  data_processing.mk_road 1 (data_processing.LineString [(100, 0); (0, 0)])
    (Some 30) "Same direction".

(** A road whose line string is empty. *)
Definition road_empty : data_processing.Road :=
  data_processing.mk_road 2 (data_processing.LineString []) (Some 50)
    "Both directions".

(** Stand-ins for [round(x, 2)] on values that have at most two decimals,
    and for the connectivity queries. *)
Definition exact : R -> R := fun x => x.
Definition connected : nx.DiGraph -> bool := fun _ => true.
Definition no_component : nx.DiGraph -> nat := fun _ => 0%nat.

(** The graph [road_AB] yields: one edge each way, same attributes. *)
Definition edge_AB : nx.edge_data :=
  nx.mk_edge 0 (hypot (100 - 0) (0 - 0)) 50
             (hypot (100 - 0) (0 - 0) / 1000 / (50 / 60)) [(0, 0); (100, 0)].


Definition nodes_AB : list (string * option nx.node_data) :=
  [("J_A", Some (nx.mk_node 0 0 "junction"));
   ("J_B", Some (nx.mk_node 100 0 "junction"))].

Definition graph_AB : nx.DiGraph :=
  nx.mk_graph nodes_AB [(("J_A", "J_B"), edge_AB); (("J_B", "J_A"), edge_AB)].


(** A town with one fire station, 10 m east of the road node [N]. *)
Definition fire_station : list Facility :=
  [mk_facility 0 (Some "Fire Station") "Fire Station" (10, 0)].

(** The simulator over [graph_N] and [fire_station] whose fleet is [v], at
    simulated time [t]. *)
Definition town (t : R) (v : Vehicle) : VehicleSimulator :=
  mk_simulator graph_N fire_station [v] t 1 100.

(** The truck dispatched to the origin, and the truck arrived there. *)
Definition truck_responding : Vehicle :=
  mk_vehicle "FT-1" FireTruck 0 "Fire Station" (10, 0) responding (10, 0)
             (Some (0, 0)) ["N"] [(0, 0)] 0 80 80 None None [] [] 0 40.

Definition truck_handling : Vehicle :=
  mk_vehicle "FT-1" FireTruck 0 "Fire Station" (10, 0) handling (0, 0)
             (Some (0, 0)) [] [] 1 80 0 (Some 0) (Some 600) [] [] 0 40.

(** A full day of captures. *)
Definition full_history : list Entry := repeat (mk_entry "00:00Z" []) 1440.

End examples.

(** ** traffic.py: the delay factor of a traffic result *)
Module traffic.

(** The part of the HERE flow answer the function reads: the dict under
    ["currentFlow"] with its optional ["speed"] and ["freeFlow"]. *)
Record CurrentFlow : Type := mk_flow {
  flow_speed : option R;
  flow_freeFlow : option R }.

Record TrafficJson : Type := mk_traffic {
  currentFlow : option CurrentFlow }.

(** [d.get(key, default)]. *)
Definition get_default {A : Type} (o : option A) (default : A) : A :=
  match o with
  | Some a => a
  | None => default
  end.

Definition compute_delay_factor (traffic_json : TrafficJson) (default_max : R)
    : R :=
  let current_flow := get_default (currentFlow traffic_json) (mk_flow None None) in
  let current_speed := get_default (flow_speed current_flow) 0 in
  let free_flow := get_default (flow_freeFlow current_flow) 0 in
  let factor :=
    if Rltb 0 current_speed then free_flow / current_speed else default_max in
  if Rltb factor 1 then 1 else factor.

End traffic.

(** ** vehicle_simulation.py: the remaining fleet queries *)
Module fleet.
Import vehicle_simulation.

Definition get_vehicles_by_type (s : VehicleSimulator) (t : string)
    : list Vehicle :=
  filter (fun v => String.eqb (vehicle_type v) t) (vehicles s).




End fleet.

(** ** api.py: the route of a vehicle and the reset of the simulation *)
Module api_queries.
Import vehicle_simulation vehicle_controller.

(** A GeoJSON feature of [get_vehicle_route]; the collection is the list of
    features. *)
Record Feature : Type := mk_feature {
  coordinates : list Point;
  feature_vehicle_id : string;
  feature_status : Status;
  feature_estimated_time : R }.

(** The loop that gathers [route_points]: a node that is not in the graph is
    passed over (with a printed warning), a node without coordinates raises
    [KeyError]. *)
Fixpoint route_points_loop (to_wgs84 : R -> R -> Point) (g : nx.DiGraph)
    (route : list string) (acc : list Point) : list Point + exn :=
  match route with
  | [] => inl acc
  | node_id :: rest =>
      if nx.has_node g node_id then
        match nx.node_xy g node_id with
        | inl (x, y) => route_points_loop to_wgs84 g rest (acc ++ [to_wgs84 x y])
        | inr e => inr e
        end
      else route_points_loop to_wgs84 g rest acc
  end.

(** [total_travel_time += graph.edges.get((u, v), {}).get('travel_time', 0.0)]
    over the consecutive pairs of the route. *)
Fixpoint lenient_travel_time (g : nx.DiGraph) (route : list string) (acc : R)
    : R :=
  match route with
  | u :: ((v :: _) as rest) =>
      lenient_travel_time g rest
        (acc + match nx.get_edge g u v with
               | Some d => nx.edge_travel_time d
               | None => 0
               end)
  | _ => acc
  end.

Section Queries.

(** The projection EPSG:32618 -> EPSG:4326 is external. *)
Variable transformer_to_wgs84 : R -> R -> Point.

Definition get_vehicle_route (vid : string) (s : VehicleSimulator)
    : list Feature + exn :=
  match get_vehicle_by_id (vehicles s) vid with
  | None => inr (HTTPException 404 "Vehicle not found")
  | Some vehicle =>
      match route_nodes vehicle with
      | [] => inl []
      | _ =>
          match route_points_loop transformer_to_wgs84 (graph s)
                  (route_nodes vehicle) [] with
          | inr e =>
              inr (HTTPException 500
                     ("Internal server error: " ++ api.exn_detail e))
          | inl route_points =>
              if (List.length route_points <? 2)%nat then inl []
              else
                inl [mk_feature route_points vid (status vehicle)
                       (lenient_travel_time (graph s) (route_nodes vehicle) 0)]
          end
      end
  end.

End Queries.

(** [reset_simulation]: the fleet is emptied and initialized again; the two
    thread calls around it change no data. *)
Definition reset_simulation (s : VehicleSimulator) (draws : list nat)
    : (VehicleSimulator * list nat) * (string + exn) :=
  match initialize_vehicles (set_vehicles [] s) draws with
  | (r, Some e) =>
      (r, inr (HTTPException 500
                 ("Error resetting simulation: " ++ api.exn_detail e)))
  | (r, None) => (r, inl "Simulation reset successfully")
  end.

End api_queries.

(** ** Notions used to state further properties *)
Module notions.
Import vehicle_simulation.

(** The route cursor of a moving vehicle points into its route geometry. *)
Definition cursor_inside (v : Vehicle) : Prop :=
  status_in (status v) [responding; returning] = true ->
  route_nodes v <> [] ->
  (route_index v < List.length (route_geometry v))%nat.

(** What each status entails for the other attributes of a vehicle. *)
Definition status_consistent (v : Vehicle) : Prop :=
  max_speed v = max_speed_of (class v) /\
  match status v with
  | idle =>
      current_speed v = 0 /\ route_nodes v = [] /\ route_geometry v = [] /\
      destination v = None /\ current_location v = facility_location v
  | handling =>
      current_speed v = 0 /\ route_nodes v = [] /\ route_geometry v = [] /\
      (exists start, handling_start_time v = Some start) /\
      handling_duration v = Some 600
  | responding => current_speed v = max_speed v
  | returning =>
      current_speed v = max_speed v * 0.7 /\
      destination v = Some (facility_location v)
  | patrolling => class v = PoliceCar
  end.

(** What the loop never changes about a vehicle. *)
Definition identity (v : Vehicle) : string * VehicleClass * Z * string * Point :=
  (vehicle_id v, class v, facility_id v, facility_name v, facility_location v).

(** The number of vehicles [initialize_vehicles] assigns to a facility. *)
Definition quota (f : Facility) : nat :=
  match facility_class (facility_type f) with
  | Some (_, n) => n
  | None => 0%nat
  end.

(** [l] is a walk along edges of [g] that starts at a successor of [n]. *)
Fixpoint walk_from (g : nx.DiGraph) (n : string) (l : list string) : Prop :=
  match l with
  | [] => True
  | m :: rest => In m (nx.neighbors g n) /\ walk_from g m rest
  end.

(** The last node of a walk, or its start when the walk is empty. *)
Fixpoint walk_end (n : string) (l : list string) : string :=
  match l with
  | [] => n
  | m :: rest => walk_end m rest
  end.

(** A vehicle as [initialize_vehicles] leaves it, whether or not the
    patrol of a police car could be started. *)
Definition at_home (v : Vehicle) : Prop :=
  current_location v = facility_location v /\
  route_nodes v = [] /\ destination v = None /\
  (status v = idle \/ (status v = patrolling /\ class v = PoliceCar)).

(** A vehicle after an initialization that returned normally. *)
Definition started (v : Vehicle) : Prop :=
  if is_police (class v)
  then status v = patrolling /\ current_speed v = 40
  else status v = idle /\ current_speed v = 0.

(** The ids handed out so far are distinct and numbered below the counter. *)
Definition ids_distinct (st : InitState) : Prop :=
  NoDup (map vehicle_id (vehicles (init_sim st))) /\
  forall v, In v (vehicles (init_sim st)) ->
    exists c k, vehicle_id v = id_prefix c ++ str k /\ (k < init_next_id st)%nat.

(** An edge joins two different nodes and has a positive speed and a
    non-negative length and travel time. *)
Definition edge_sound (e : (string * string) * nx.edge_data) : Prop :=
  fst (fst e) <> snd (fst e) /\
  0 < nx.edge_speed (snd e) /\
  0 <= nx.edge_length (snd e) /\
  0 <= nx.edge_travel_time (snd e).

(** Every node of the graph carries coordinates. *)
Definition nodes_complete (g : nx.DiGraph) : Prop :=
  forall n d, In (n, d) (nx.nodes g) -> d <> None.

(** The distance of a point to a node of the graph. *)
Definition distance_to_node (point : Point) (d : nx.node_data) : R :=
  hypot (fst point - nx.node_x d) (snd point - nx.node_y d).

End notions.

(** ** Further concrete vehicles and fleets *)
Module more_examples.
Import vehicle_simulation vehicle_controller.

(** A police car back at its station after a call; its last patrol had
    reached the fourth way point. *)
Definition police_back : Vehicle :=
  mk_vehicle "POL-1" PoliceCar 0 "Police Station" (0, 0) idle (0, 0)
             None [] [] 0 120 0 None None [] [] 3 40.

(** The fire truck over the two-junction graph, and a path search that
    always answers with the route from [J_A] to [J_B]. *)
Definition town_AB : VehicleController :=
  mk_controller
    (mk_simulator examples.graph_AB examples.fire_station [examples.truck_idle]
       0 1 100)
    [].

Definition always_AB (g : nx.DiGraph) (source target : option string)
    : list string + exn :=
  inl ["J_A"; "J_B"].

End more_examples.

(** * Properties *)

Import vehicle_simulation.

(** ** Comparisons and distances *)

Lemma Rleb_true (a b : R) : a <= b -> Rleb a b = true.
Proof. intros H. unfold Rleb. destruct (Rle_dec a b); [reflexivity | contradiction]. Qed.

Lemma Rleb_false (a b : R) : b < a -> Rleb a b = false.
Proof. intros H. unfold Rleb. destruct (Rle_dec a b); [lra | reflexivity]. Qed.

Lemma Rltb_true (a b : R) : a < b -> Rltb a b = true.
Proof. intros H. unfold Rltb. destruct (Rlt_dec a b); [reflexivity | contradiction]. Qed.

Lemma Rltb_false (a b : R) : b <= a -> Rltb a b = false.
Proof. intros H. unfold Rltb. destruct (Rlt_dec a b); [lra | reflexivity]. Qed.

Lemma Reqb_true (a b : R) : a = b -> Reqb a b = true.
Proof. intros H. unfold Reqb. destruct (Req_dec_T a b); [reflexivity | contradiction]. Qed.

Lemma Reqb_false (a b : R) : a <> b -> Reqb a b = false.
Proof. intros H. unfold Reqb. destruct (Req_dec_T a b); [contradiction | reflexivity]. Qed.

Lemma Rleb_spec (a b : R) : Rleb a b = true <-> a <= b.
Proof.
  unfold Rleb. destruct (Rle_dec a b); split; intros; try assumption;
    try reflexivity; try discriminate; contradiction.
Qed.

Lemma Rltb_spec (a b : R) : Rltb a b = true <-> a < b.
Proof.
  unfold Rltb. destruct (Rlt_dec a b); split; intros; try assumption;
    try reflexivity; try discriminate; contradiction.
Qed.

Lemma hypot_nonneg (dx dy : R) : 0 <= hypot dx dy.
Proof. unfold hypot. apply sqrt_pos. Qed.

Lemma hypot_zero_iff (dx dy : R) : hypot dx dy = 0 <-> dx = 0 /\ dy = 0.
Proof.
  unfold hypot. split.
  - intros H. apply sqrt_eq_0 in H; [| nra]. split; nra.
  - intros [-> ->]. replace (0 ^ 2 + 0 ^ 2) with 0 by lra. apply sqrt_0.
Qed.

Lemma hypot_le (dx dy m : R) :
  0 <= m -> dx ^ 2 + dy ^ 2 <= m ^ 2 -> hypot dx dy <= m.
Proof.
  intros Hm H. unfold hypot.
  rewrite <- (sqrt_pow2 m Hm). apply sqrt_le_1_alt. exact H.
Qed.

Lemma status_eqb_eq (a b : Status) : status_eqb a b = true <-> a = b.
Proof. destruct a, b; simpl; split; intros H; try reflexivity; discriminate. Qed.

(** ** C10: [start_patrol] outside the idle state *)

(** C10.  For a police car whose status is not idle, [start_patrol] returns
    normally (no exception) and leaves the whole vehicle as it was: status,
    patrol_nodes, patrol_geometry, current_speed, current_location and every
    other attribute. *)
Theorem C10_start_patrol_noop_unless_idle :
  forall (patrol : list string) (graph : nx.DiGraph) (v : Vehicle),
    status v <> idle ->
    start_patrol patrol graph v = (v, None).
Proof.
  intros patrol graph v Hs. unfold start_patrol.
  destruct (status_eqb (status v) idle) eqn:E; [| reflexivity].
  apply status_eqb_eq in E. contradiction.
Qed.

Lemma C10_witness :
  start_patrol ["N"] examples.graph_N examples.patrol_car
    = (examples.patrol_car, None).
Proof.
  apply C10_start_patrol_noop_unless_idle. simpl. discriminate.
Defined.

(** ** C1: a movement update with a zero time step *)

Lemma point_eq (p q : Point) : fst p = fst q -> snd p = snd q -> p = q.
Proof. destruct p, q; simpl; intros -> ->; reflexivity. Qed.

Lemma approach_at_target (loc : Point) (m : R) :
  0 <= m -> approach loc loc m = inl (loc, true).
Proof.
  intros Hm. unfold approach.
  rewrite Rleb_true; [reflexivity |].
  replace (hypot (fst loc - fst loc) (snd loc - snd loc)) with 0; [exact Hm |].
  symmetry. apply hypot_zero_iff. split; lra.
Qed.

Lemma approach_zero_away (loc target : Point) (m : R) :
  m = 0 -> target <> loc -> approach loc target m = inl (loc, false).
Proof.
  intros -> Hne. unfold approach.
  assert (Hpos : 0 < hypot (fst target - fst loc) (snd target - snd loc)).
  { destruct (hypot_nonneg (fst target - fst loc) (snd target - snd loc)) as [H | H];
      [exact H |].
    symmetry in H. apply hypot_zero_iff in H. destruct H as [Hx Hy].
    exfalso. apply Hne. apply point_eq; lra. }
  rewrite Rleb_false by exact Hpos.
  rewrite Reqb_false by lra.
  cbv zeta.
  match goal with
  | |- inl (?p, false) = _ => replace p with loc; [reflexivity |]
  end.
  symmetry. apply point_eq; simpl; unfold Rdiv; rewrite Rmult_0_l; lra.
Qed.

Lemma point_eq_dec (p q : Point) : {p = q} + {p <> q}.
Proof.
  destruct p as [a b], q as [c d].
  destruct (Req_dec_T a c) as [-> | H]; [| right; intros E; inversion E; contradiction].
  destruct (Req_dec_T b d) as [-> | H]; [left; reflexivity |].
  right; intros E; inversion E; contradiction.
Qed.

(** With a zero time step [update_patrol] moves nothing. *)
Lemma update_patrol_zero (graph : nx.DiGraph) (v : Vehicle) :
  current_location (fst (update_patrol graph 0 v)) = current_location v /\
  status (fst (update_patrol graph 0 v)) = status v.
Proof.
  unfold update_patrol.
  destruct (status_eqb (status v) patrolling
            && match patrol_geometry v with [] => false | _ => true end);
    [| split; reflexivity].
  destruct (nth_error (patrol_geometry v) (patrol_index v)) as [target |];
    [| split; reflexivity].
  destruct (point_eq_dec target (current_location v)) as [-> | Hne].
  - rewrite approach_at_target by lra. split; reflexivity.
  - rewrite approach_zero_away by (try assumption; lra). split; reflexivity.
Qed.

(** With a zero time step [update_movement] changes location or status only
    by an arrival, and an arrival needs the vehicle on its last way point. *)
Lemma update_movement_zero_still (graph : nx.DiGraph) (t : R) (v : Vehicle) :
  ~ system.at_final_waypoint v ->
  current_location (fst (update_movement graph 0 t v)) = current_location v /\
  status (fst (update_movement graph 0 t v)) = status v.
Proof.
  intros Hnot. unfold update_movement.
  destruct (status_in (status v) [responding; returning]) eqn:Hst; simpl;
    [| split; reflexivity].
  destruct (route_nodes v) as [| n ns] eqn:Hrn; [split; reflexivity |].
  destruct (List.length (route_geometry v) <=? route_index v)%nat eqn:Hlen;
    [split; reflexivity |].
  destruct (nth_error (route_geometry v) (route_index v)) as [target |] eqn:Hnth;
    [| split; reflexivity].
  destruct (point_eq_dec target (current_location v)) as [-> | Hne].
  - rewrite approach_at_target by lra. simpl.
    destruct (List.length (route_geometry v) <=? route_index v + 1)%nat eqn:Hlen'.
    + exfalso. apply Hnot. unfold system.at_final_waypoint.
      rewrite Hst, Hrn, Hnth. repeat split; [discriminate |].
      apply Nat.leb_le in Hlen'. apply Nat.leb_gt in Hlen. lia.
    + destruct v; split; reflexivity.
  - rewrite approach_zero_away by (try assumption; lra). simpl.
    rewrite Hlen. destruct v; split; reflexivity.
Qed.

Lemma update_movement_zero_arrives (graph : nx.DiGraph) (t : R) (v : Vehicle) :
  system.at_final_waypoint v ->
  fst (update_movement graph 0 t v)
    = arrive_at_destination t
        (set_route_index (route_index v + 1)
           (set_current_location (current_location v) v)).
Proof.
  intros (Hst & Hrn & Hnth & Hlen). unfold update_movement.
  rewrite Hst. simpl.
  destruct (route_nodes v) as [| n ns]; [contradiction |].
  replace (List.length (route_geometry v) <=? route_index v)%nat with false
    by (symmetry; apply Nat.leb_gt; lia).
  rewrite Hnth. rewrite approach_at_target by lra. simpl.
  replace (List.length (route_geometry v) <=? route_index v + 1)%nat with true
    by (symmetry; apply Nat.leb_le; lia).
  reflexivity.
Qed.

(** C1 (as amended).  With [simulated_time_step = 0], [update_patrol] never
    changes [current_location] or [status].  [update_movement] leaves both
    unchanged unless the vehicle is responding or returning and already
    stands exactly on the last way point of its route; in that case it
    arrives: a responding vehicle becomes handling where it stands, a
    returning vehicle becomes idle at its facility location. *)
Theorem C1_zero_time_step :
  forall (graph : nx.DiGraph) (t : R) (v : Vehicle),
    (current_location (fst (update_patrol graph 0 v)) = current_location v /\
     status (fst (update_patrol graph 0 v)) = status v) /\
    (~ system.at_final_waypoint v ->
     current_location (fst (update_movement graph 0 t v)) = current_location v /\
     status (fst (update_movement graph 0 t v)) = status v) /\
    (system.at_final_waypoint v -> status v = responding ->
     current_location (fst (update_movement graph 0 t v)) = current_location v /\
     status (fst (update_movement graph 0 t v)) = handling) /\
    (system.at_final_waypoint v -> status v = returning ->
     current_location (fst (update_movement graph 0 t v)) = facility_location v /\
     status (fst (update_movement graph 0 t v)) = idle).
Proof.
  intros graph t v. split; [apply update_patrol_zero |].
  split; [apply update_movement_zero_still |].
  split; intros Hfin Hs; rewrite (update_movement_zero_arrives graph t v Hfin);
    unfold arrive_at_destination; simpl; rewrite Hs; simpl; split; reflexivity.
Qed.

Lemma truck_back_at_final_waypoint : system.at_final_waypoint examples.truck_back.
Proof.
  unfold system.at_final_waypoint. simpl. repeat split. discriminate.
Qed.

Lemma truck_midway_not_at_final_waypoint :
  ~ system.at_final_waypoint examples.truck_midway.
Proof.
  intros (_ & _ & H & _). simpl in H. inversion H. lra.
Qed.

Lemma C1_witness :
  (current_location (fst (update_movement examples.graph_N 0 0 examples.truck_midway))
     = current_location examples.truck_midway /\
   status (fst (update_movement examples.graph_N 0 0 examples.truck_midway))
     = status examples.truck_midway) /\
  (current_location (fst (update_movement examples.graph_N 0 0 examples.truck_back))
     = facility_location examples.truck_back /\
   status (fst (update_movement examples.graph_N 0 0 examples.truck_back)) = idle).
Proof.
  split.
  - apply (proj1 (proj2 (C1_zero_time_step examples.graph_N 0 examples.truck_midway))).
    exact truck_midway_not_at_final_waypoint.
  - apply (proj2 (proj2 (proj2
             (C1_zero_time_step examples.graph_N 0 examples.truck_back)))).
    + exact truck_back_at_final_waypoint.
    + reflexivity.
Defined.

(** C1 as stated fails: the returning truck stands at (0, 0) on the last
    way point of its route; a movement update with a zero time step makes
    it idle and puts it at its station, (10, 0). *)
Lemma C1_counterexample :
  status examples.truck_back = returning /\
  current_location examples.truck_back = (0, 0) /\
  status (fst (update_movement examples.graph_N 0 0 examples.truck_back)) = idle /\
  current_location (fst (update_movement examples.graph_N 0 0 examples.truck_back))
    = (10, 0) /\
  current_location (fst (update_movement examples.graph_N 0 0 examples.truck_back))
    <> current_location examples.truck_back.
Proof.
  rewrite (update_movement_zero_arrives _ _ _ truck_back_at_final_waypoint).
  simpl. repeat split. intros H. inversion H. lra.
Qed.

(** ** C3: the status history is capped at 1440 entries *)

Import vehicle_controller.

Lemma last_n_length {A : Type} (n : nat) (l : list A) :
  (n <= List.length l)%nat -> List.length (last_n n l) = n.
Proof. intros H. unfold last_n. rewrite length_skipn. lia. Qed.

(** C3.  After [_capture_status] the history has at most 1440 entries and
    is a suffix of the old history followed by the new entry.  When 1440
    entries were stored, exactly 1440 are kept: the oldest one is dropped,
    the others follow in their order and the new entry comes last. *)
Theorem C3_history_cap :
  forall (now : string) (c : VehicleController),
    (List.length (status_history (_capture_status now c)) <= 1440)%nat /\
    (exists dropped : list Entry,
       (status_history c ++ [mk_entry now (map get_state (vehicles (simulator c)))])%list
         = (dropped ++ status_history (_capture_status now c))%list) /\
    (List.length (status_history c) = 1440%nat ->
     exists (oldest : Entry) (kept : list Entry),
       status_history c = oldest :: kept /\
       status_history (_capture_status now c)
         = (kept ++ [mk_entry now (map get_state (vehicles (simulator c)))])%list /\
       List.length (status_history (_capture_status now c)) = 1440%nat).
Proof.
  intros now c. unfold _capture_status. cbv zeta. cbn [status_history].
  set (entry := mk_entry now (map get_state (vehicles (simulator c)))).
  set (h := (status_history c ++ [entry])%list).
  assert (Hh : List.length h = S (List.length (status_history c))).
  { unfold h. rewrite length_app. simpl. lia. }
  split; [| split].
  - destruct (1440 <? List.length h)%nat eqn:E.
    + apply Nat.ltb_lt in E. rewrite last_n_length; lia.
    + apply Nat.ltb_ge in E. exact E.
  - destruct (1440 <? List.length h)%nat.
    + exists (firstn (List.length h - 1440) h). unfold last_n.
      symmetry. apply firstn_skipn.
    + exists []. reflexivity.
  - intros Hlen.
    destruct (status_history c) as [| oldest kept] eqn:Hc; [discriminate |].
    exists oldest, kept. split; [reflexivity |].
    replace (1440 <? List.length h)%nat with true
      by (symmetry; apply Nat.ltb_lt; lia).
    unfold last_n. replace (List.length h - 1440)%nat with 1%nat by lia.
    unfold h. simpl. split; [reflexivity |].
    rewrite length_app. simpl in *. lia.
Qed.

Lemma C3_witness :
  exists (oldest : Entry) (kept : list Entry),
    examples.full_history = oldest :: kept /\
    status_history
      (_capture_status "00:01Z"
         (examples.controller_of examples.truck_idle examples.full_history))
      = (kept ++ [mk_entry "00:01Z" [get_state examples.truck_idle]])%list /\
    List.length
      (status_history
         (_capture_status "00:01Z"
            (examples.controller_of examples.truck_idle examples.full_history)))
      = 1440%nat.
Proof.
  apply (proj2 (proj2 (C3_history_cap "00:01Z"
           (examples.controller_of examples.truck_idle examples.full_history)))).
  apply repeat_length.
Defined.

(** ** C4: the dispatch precondition *)

Lemma get_vehicle_by_id_id (vs : list Vehicle) (vid : string) (v : Vehicle) :
  get_vehicle_by_id vs vid = Some v -> vehicle_id v = vid.
Proof.
  induction vs as [| a vs IH]; simpl; [discriminate |].
  destruct (String.eqb (vehicle_id a) vid) eqn:E.
  - intros H. inversion H. subst. apply String.eqb_eq. exact E.
  - exact IH.
Qed.

Lemma get_vehicle_by_id_In (vs : list Vehicle) (vid : string) (v : Vehicle) :
  get_vehicle_by_id vs vid = Some v -> In v vs.
Proof.
  induction vs as [| a vs IH]; simpl; [discriminate |].
  destruct (String.eqb (vehicle_id a) vid).
  - intros H. inversion H. left. reflexivity.
  - intros H. right. apply IH. exact H.
Qed.

Lemma get_store_vehicle (vs : list Vehicle) (vid : string) (v v' : Vehicle) :
  get_vehicle_by_id vs vid = Some v ->
  vehicle_id v' = vid ->
  get_vehicle_by_id (store_vehicle vid v' vs) vid = Some v'.
Proof.
  intros Hget Hid. induction vs as [| a vs IH]; simpl in *; [discriminate |].
  destruct (String.eqb (vehicle_id a) vid) eqn:E; simpl.
  - rewrite Hid, String.eqb_refl. reflexivity.
  - rewrite E. apply IH. exact Hget.
Qed.

Lemma gather_geometry_ok (graph : nx.DiGraph) (route : list string) :
  (forall n, In n route -> exists p, nx.node_xy graph n = inl p) ->
  forall acc, exists geom,
    gather_geometry graph route acc = ((acc ++ geom)%list, None) /\
    List.length geom = List.length route.
Proof.
  induction route as [| n route IH]; intros Hall acc; simpl.
  - exists []. rewrite app_nil_r. split; reflexivity.
  - destruct (Hall n (or_introl eq_refl)) as [p Hp]. rewrite Hp.
    destruct (IH (fun m Hm => Hall m (or_intror Hm)) (acc ++ [p])%list)
      as (geom & Hg & Hl).
    exists (p :: geom). rewrite Hg, <- app_assoc. simpl. split; congruence.
Qed.



Lemma start_response_any (dest : Point) (route : list string)
    (graph : nx.DiGraph) (v : Vehicle) :
  status (fst (start_response dest route graph v)) = responding /\
  vehicle_id (fst (start_response dest route graph v)) = vehicle_id v.
Proof.
  unfold start_response, _update_route_geometry. cbv zeta.
  destruct (gather_geometry _ _ _). simpl. split; reflexivity.
Qed.



(** ** C2: the closest available vehicle is the one dispatched *)

Import api.

Section MinFrom.

Context {A : Type} (key : A -> R).

Lemma min_from_In (l : list A) :
  forall best, In (min_from key best l) (best :: l).
Proof.
  induction l as [| a l IH]; intros best; simpl; [left; reflexivity |].
  destruct (Rltb (key a) (key best)).
  - right. apply IH.
  - destruct (IH best) as [H | H]; [left; exact H | right; right; exact H].
Qed.



End MinFrom.

Lemma vehicle_type_nonempty (v : Vehicle) : vehicle_type v <> "".
Proof. unfold vehicle_type. destruct (class v); discriminate. Qed.

Lemma status_in_busy_false (s : Status) :
  status_in s [responding; handling] = false <-> s <> responding /\ s <> handling.
Proof.
  destruct s; simpl; split; intros H; try discriminate; try (split; discriminate);
    destruct H as [H1 H2]; contradiction.
Qed.

(** Who [get_available_vehicles(vehicle_type=t)] returns for a type [t]
    that is not the empty string. *)
Lemma available_iff (s : VehicleSimulator) (t : string) (v : Vehicle) :
  t <> "" ->
  In v (get_available_vehicles s (Some t) None) <->
  In v (vehicles s) /\ vehicle_type v = t /\
  status v <> responding /\ status v <> handling.
Proof.
  intros Ht. unfold get_available_vehicles, truthy_str, truthy_int.
  destruct (String.eqb t "") eqn:E; [apply String.eqb_eq in E; contradiction |].
  rewrite filter_In, filter_In, negb_true_iff, String.eqb_eq, status_in_busy_false.
  tauto.
Qed.

Lemma controller_dispatch_done (now vid : string) (dest : Point)
    (route : list string) (c c' : VehicleController) :
  vehicle_controller.dispatch_vehicle now vid dest route c = (c', None) ->
  exists v', get_vehicle_by_id (vehicles (simulator c')) vid = Some v' /\
             status v' = responding.
Proof.
  unfold vehicle_controller.dispatch_vehicle. cbv zeta.
  destruct (get_vehicle_by_id (vehicles (simulator c)) vid) as [v |] eqn:Hget;
    [| discriminate].
  destruct (status_in (status v) [responding; handling]); [discriminate |].
  destruct (start_response dest route (graph (simulator c)) v) as [v' e] eqn:Hsr.
  destruct e; [discriminate |]. intros H. inversion H. subst c'. clear H.
  exists v'. unfold _capture_status. simpl. split.
  - apply get_store_vehicle with (v := v); [exact Hget |].
    unfold start_response, _update_route_geometry in Hsr. cbv zeta in Hsr.
    destruct (gather_geometry _ _ _) in Hsr. inversion Hsr. simpl.
    apply get_vehicle_by_id_id with (vs := vehicles (simulator c)). exact Hget.
  - unfold start_response, _update_route_geometry in Hsr. cbv zeta in Hsr.
    destruct (gather_geometry _ _ _) in Hsr. inversion Hsr. reflexivity.
Qed.




Lemma distance_on_axis (vid : string) (x : R) :
  0 <= x -> distance_to 0 0 (examples.ambulance_at vid x) = x.
Proof.
  intros Hx. unfold distance_to, hypot. simpl.
  replace ((x - 0) * ((x - 0) * 1) + (0 - 0) * ((0 - 0) * 1)) with (x ^ 2)
    by (simpl; lra).
  apply sqrt_pow2. exact Hx.
Qed.

(** The example of the specification: of vehicles at distances 5, 2 and 8
    the one at distance 2 is dispatched. *)
Example dispatch_5_2_8 :
  exists c' resp,
    api.dispatch_vehicle examples.plane examples.stay_put "00:01Z"
      (mk_request "ambulance" 0 0) examples.three_ambulances = (c', inl resp) /\
    response_vehicle_id resp = "AMB-2".
Proof.
  unfold api.dispatch_vehicle. cbv zeta.
  change (examples.plane (destination_lon (mk_request "ambulance" 0 0))
            (destination_lat (mk_request "ambulance" 0 0))) with (0, 0).
  change (get_available_vehicles (simulator examples.three_ambulances)
            (Some (request_vehicle_type (mk_request "ambulance" 0 0))) None)
    with [examples.ambulance_at "AMB-1" 5; examples.ambulance_at "AMB-2" 2;
          examples.ambulance_at "AMB-3" 8].
  unfold min_from. rewrite !distance_on_axis by lra.
  rewrite Rltb_true by lra. rewrite Rltb_false by lra.
  eexists. eexists. split; reflexivity.
Qed.

(** ** C5: dispatch on a fully busy fleet *)

(** C5 (as amended).  For a request whose [vehicle_type] is not the empty
    string: when every vehicle of that type is responding or handling, the
    handler fails with its 404 "No available ... vehicles" error and returns
    the controller it was given, so no vehicle and no history entry changes. *)
Theorem C5_busy_fleet_rejected :
  forall (proj : R -> R -> Point)
         (sp : nx.DiGraph -> option string -> option string -> list string + exn)
         (now : string) (request : DispatchRequest) (c : VehicleController),
    request_vehicle_type request <> "" ->
    (forall v, In v (vehicles (simulator c)) ->
       vehicle_type v = request_vehicle_type request ->
       status v = responding \/ status v = handling) ->
    api.dispatch_vehicle proj sp now request c
      = (c, inr (HTTPException 404
                   ("No available " ++ request_vehicle_type request ++ " vehicles"))).
Proof.
  intros proj sp now request c Ht Hbusy. unfold api.dispatch_vehicle. cbv zeta.
  destruct (proj (destination_lon request) (destination_lat request)) as [x y].
  destruct (get_available_vehicles (simulator c)
              (Some (request_vehicle_type request)) None)
    as [| first others] eqn:Hav; [reflexivity |].
  exfalso.
  assert (Hin : In first (get_available_vehicles (simulator c)
                            (Some (request_vehicle_type request)) None)).
  { rewrite Hav. left. reflexivity. }
  apply available_iff in Hin; [| exact Ht].
  destruct Hin as (Hin & Hty & Hr & Hh).
  destruct (Hbusy first Hin Hty); contradiction.
Qed.

Lemma C5_witness :
  api.dispatch_vehicle examples.plane examples.stay_put "00:01Z"
    (mk_request "fire_truck" 0 0) (examples.controller_of examples.truck_midway [])
    = (examples.controller_of examples.truck_midway [],
       inr (HTTPException 404 "No available fire_truck vehicles")).
Proof.
  apply (C5_busy_fleet_rejected examples.plane examples.stay_put "00:01Z"
           (mk_request "fire_truck" 0 0)
           (examples.controller_of examples.truck_midway [])).
  - simpl. discriminate.
  - simpl. intros v [<- | []] _. left. reflexivity.
Defined.

(** C5 as stated fails for the empty type: no vehicle has the type [""], so
    every vehicle of the requested type is busy, yet
    [get_available_vehicles] applies no type filter and the idle fire truck
    is dispatched. *)
Lemma C5_counterexample :
  (forall v,
     In v (vehicles (simulator (examples.controller_of examples.truck_idle []))) ->
     vehicle_type v = "" -> status v = responding \/ status v = handling) /\
  status examples.truck_idle = idle /\
  exists c' resp v',
    api.dispatch_vehicle examples.plane examples.stay_put "00:01Z"
      (mk_request "" 0 0) (examples.controller_of examples.truck_idle [])
      = (c', inl resp) /\
    response_vehicle_id resp = "FT-1" /\
    get_vehicle_by_id (vehicles (simulator c')) "FT-1" = Some v' /\
    status v' = responding.
Proof.
  split; [| split; [reflexivity |]].
  - intros v _ Hty. exfalso. exact (vehicle_type_nonempty v Hty).
  - do 3 eexists. repeat split; reflexivity.
Qed.

(** ** Dict lemmas for the graph *)

Section Dict.

Context {K V : Type} (eqb : K -> K -> bool).
Hypothesis eqb_eq : forall a b, eqb a b = true <-> a = b.

Lemma eqb_same (k : K) : eqb k k = true.
Proof. apply eqb_eq. reflexivity. Qed.

Lemma eqb_differ (a b : K) : a <> b -> eqb a b = false.
Proof.
  intros H. destruct (eqb a b) eqn:E; [| reflexivity].
  apply eqb_eq in E. contradiction.
Qed.

Lemma get_assign_same (k : K) (v : V) (d : list (K * V)) :
  nx.get eqb k (nx.assign eqb k v d) = Some v.
Proof.
  induction d as [| [k' v'] d IH]; simpl.
  - rewrite eqb_same. reflexivity.
  - destruct (eqb k k') eqn:E; simpl.
    + rewrite eqb_same. reflexivity.
    + rewrite E. exact IH.
Qed.

Lemma get_assign_other (k k0 : K) (v : V) (d : list (K * V)) :
  k0 <> k -> nx.get eqb k0 (nx.assign eqb k v d) = nx.get eqb k0 d.
Proof.
  intros Hne. induction d as [| [k' v'] d IH]; simpl.
  - rewrite (eqb_differ k0 k Hne). reflexivity.
  - destruct (eqb k k') eqn:E; simpl.
    + apply eqb_eq in E. subst k'. rewrite (eqb_differ k0 k Hne). reflexivity.
    + rewrite IH. reflexivity.
Qed.

Lemma get_In (k : K) (v : V) (d : list (K * V)) :
  nx.get eqb k d = Some v -> In (k, v) d.
Proof.
  induction d as [| [k' v'] d IH]; simpl; [discriminate |].
  destruct (eqb k k') eqn:E.
  - apply eqb_eq in E. subst k'. intros H. injection H as ->. left. reflexivity.
  - intros H. right. apply IH. exact H.
Qed.

Lemma In_assign (k : K) (v : V) (d : list (K * V)) (x : K * V) :
  In x (nx.assign eqb k v d) -> x = (k, v) \/ In x d.
Proof.
  induction d as [| [k' v'] d IH]; simpl.
  - intros [<- | []]. left. reflexivity.
  - destruct (eqb k k'); simpl.
    + intros [<- | H]; [left; reflexivity | right; right; exact H].
    + intros [<- | H]; [right; left; reflexivity |].
      destruct (IH H) as [-> | H']; [left; reflexivity | right; right; exact H'].
Qed.

Lemma get_app_found (k : K) (v : V) (d d' : list (K * V)) :
  nx.get eqb k d = Some v -> nx.get eqb k (d ++ d') = Some v.
Proof.
  induction d as [| [k' v'] d IH]; simpl; [discriminate |].
  destruct (eqb k k'); [trivial | exact IH].
Qed.

End Dict.

Lemma string_eqb_eq (a b : string) : String.eqb a b = true <-> a = b.
Proof. apply String.eqb_eq. Qed.

Lemma edge_key_eqb_eq (a b : string * string) :
  nx.edge_key_eqb a b = true <-> a = b.
Proof.
  destruct a as [a1 a2], b as [b1 b2]. unfold nx.edge_key_eqb. simpl.
  rewrite andb_true_iff, !String.eqb_eq. split.
  - intros [-> ->]. reflexivity.
  - intros H. injection H as -> ->. split; reflexivity.
Qed.

Lemma key_eqb_eq (a b : Point) : data_processing.key_eqb a b = true <-> a = b.
Proof.
  destruct a as [a1 a2], b as [b1 b2]. unfold data_processing.key_eqb. simpl.
  rewrite andb_true_iff. unfold Reqb.
  destruct (Req_dec_T a1 b1) as [E1 | E1], (Req_dec_T a2 b2) as [E2 | E2]; split;
    intros H.
  all: try (destruct H; discriminate).
  all: try (injection H as H1 H2; contradiction).
  - subst. reflexivity.
  - split; reflexivity.
Qed.

(** ** C8: roads with fewer than two coordinate points *)

Import data_processing.

Section Skipping.

Variable round2 : R -> R.
Variable is_strongly_connected : nx.DiGraph -> bool.
Variable largest_cc_len : nx.DiGraph -> nat.
Variable junctions : list Junction.

Lemma process_road_degenerate (st : BuildState) (road : Road) :
  degenerate road = true -> process_road round2 junctions st road = st.
Proof.
  unfold degenerate, process_road.
  destruct (geometry road) as [coords |]; [| discriminate].
  intros ->. reflexivity.
Qed.

Lemma process_roads_skip (roads : list Road) :
  forall st,
    process_roads round2 junctions roads st
    = process_roads round2 junctions
        (filter (fun road => negb (degenerate road)) roads) st.
Proof.
  unfold process_roads.
  induction roads as [| road roads IH]; intros st; simpl; [reflexivity |].
  destruct (degenerate road) eqn:E; simpl.
  - rewrite process_road_degenerate by exact E. apply IH.
  - apply IH.
Qed.

End Skipping.

(** C8 (as amended).  A road whose geometry has fewer than 2 coordinate
    points is skipped without any report: processing it leaves the graph,
    [junction_points] and [node_counter] as they were, so it contributes no
    node and no edge; and the outcome of the whole build (the graph and the
    printed lines, or the failure on an empty junction set) is the outcome
    of the build over the remaining roads. *)
Theorem C8_degenerate_roads_skipped :
  forall (round2 : R -> R) (is_strongly_connected : nx.DiGraph -> bool)
         (largest_cc_len : nx.DiGraph -> nat)
         (roads : list Road) (junctions : list Junction),
    (forall st road, In road roads -> degenerate road = true ->
       process_road round2 junctions st road = st) /\
    create_road_network_graph round2 is_strongly_connected largest_cc_len
      roads junctions
    = create_road_network_graph round2 is_strongly_connected largest_cc_len
        (filter (fun road => negb (degenerate road)) roads) junctions.
Proof.
  intros round2 isc lcc roads junctions. split.
  - intros st road _ Hd. apply process_road_degenerate. exact Hd.
  - unfold create_road_network_graph, build_state.
    rewrite <- process_roads_skip. reflexivity.
Qed.

Lemma C8_witness :
  process_road examples.exact examples.junctions_AB
    (add_junctions examples.exact examples.junctions_AB (mk_build nx.empty [] 0))
    examples.road_empty
  = add_junctions examples.exact examples.junctions_AB (mk_build nx.empty [] 0).
Proof.
  apply (proj1 (C8_degenerate_roads_skipped examples.exact examples.connected
                  examples.no_component [examples.road_empty]
                  examples.junctions_AB)).
  - left. reflexivity.
  - reflexivity.
Defined.

(** C8 as stated fails on the report: the build over the empty road alone
    raises nothing and prints the four progress lines only, exactly what the
    build over no road at all does. *)
Lemma C8_counterexample :
  degenerate examples.road_empty = true /\
  exists g,
    create_road_network_graph examples.exact examples.connected
      examples.no_component [examples.road_empty] examples.junctions_AB
    = Built g [Adding_junctions; Creating_spatial_index; Processing_roads;
               Created_graph 2 0] /\
    create_road_network_graph examples.exact examples.connected
      examples.no_component [] examples.junctions_AB
    = Built g [Adding_junctions; Creating_spatial_index; Processing_roads;
               Created_graph 2 0].
Proof.
  split; [reflexivity |].
  eexists. split; reflexivity.
Qed.

(** ** C6: the attributes and end points of every edge *)

Lemma has_xy_add_node_same (g : nx.DiGraph) (n : string) (d : nx.node_data) :
  has_xy (nx.add_node g n d) n.
Proof.
  exists d. unfold nx.add_node. simpl.
  apply get_assign_same. exact string_eqb_eq.
Qed.

Lemma has_xy_add_node (g : nx.DiGraph) (n m : string) (d : nx.node_data) :
  has_xy g m -> has_xy (nx.add_node g n d) m.
Proof.
  intros [dm Hm]. destruct (string_dec m n) as [-> | Hne].
  - apply has_xy_add_node_same.
  - exists dm. unfold nx.add_node. simpl.
    rewrite (get_assign_other _ string_eqb_eq) by exact Hne. exact Hm.
Qed.

Lemma has_xy_touch (n m : string) (ns : list (string * option nx.node_data))
    (dm : nx.node_data) :
  nx.get String.eqb m ns = Some (Some dm) ->
  nx.get String.eqb m (nx.touch_node n ns) = Some (Some dm).
Proof.
  intros H. unfold nx.touch_node.
  destruct (nx.get String.eqb n ns); [exact H |].
  apply get_app_found. exact H.
Qed.

Lemma has_xy_add_edge (g : nx.DiGraph) (u v m : string) (d : nx.edge_data) :
  has_xy g m -> has_xy (nx.add_edge g u v d) m.
Proof.
  intros [dm Hm]. exists dm. unfold nx.add_edge. simpl.
  apply has_xy_touch, has_xy_touch. exact Hm.
Qed.

Lemma edge_from_incl (roads roads' : list Road) (d : nx.edge_data) :
  incl roads roads' -> edge_from roads d -> edge_from roads' d.
Proof.
  intros Hi (road & Hin & H). exists road. split; [apply Hi; exact Hin | exact H].
Qed.

Lemma edges_ok_add_edge (roads : list Road) (g : nx.DiGraph) (u v : string)
    (d : nx.edge_data) :
  edges_ok roads g -> edge_from roads d -> has_xy g u -> has_xy g v ->
  edges_ok roads (nx.add_edge g u v d).
Proof.
  intros Hok Hd Hu Hv a b d' Hin. unfold nx.add_edge in Hin. simpl in Hin.
  apply In_assign in Hin. destruct Hin as [Heq | Hin].
  - injection Heq as -> -> ->.
    split; [exact Hd |]. split; apply has_xy_add_edge; assumption.
  - destruct (Hok a b d' Hin) as (H1 & H2 & H3).
    split; [exact H1 |]. split; apply has_xy_add_edge; assumption.
Qed.

Lemma edges_ok_add_node (roads : list Road) (g : nx.DiGraph) (n : string)
    (d : nx.node_data) :
  edges_ok roads g -> edges_ok roads (nx.add_node g n d).
Proof.
  intros Hok a b d' Hin. destruct (Hok a b d' Hin) as (H1 & H2 & H3).
  split; [exact H1 |]. split; apply has_xy_add_node; assumption.
Qed.

Section Invariant.

Variable round2 : R -> R.
Variable junctions : list Junction.
Variable roads : list Road.

Lemma add_junctions_ids (js : list Junction) :
  forall st,
    (forall k id, In (k, id) (junction_points st) -> has_xy (G st) id) ->
    let st' := add_junctions round2 js st in
    (forall k id, In (k, id) (junction_points st') -> has_xy (G st') id) /\
    (forall m, has_xy (G st) m -> has_xy (G st') m) /\
    (forall j, In j js -> has_xy (G st') ("J_" ++ node_id j)) /\
    nx.edges (G st') = nx.edges (G st).
Proof.
  induction js as [| j js IH]; intros st Hst; simpl.
  - repeat split; auto. intros j [].
  - destruct (junction_geometry j) as [x y] eqn:Hj.
    set (st1 := mk_build _ _ _).
    assert (H1 : forall k id, In (k, id) (junction_points st1) -> has_xy (G st1) id).
    { intros k id Hin. unfold st1 in *. simpl in *.
      apply In_assign in Hin. destruct Hin as [Heq | Hin].
      - injection Heq as _ ->. apply has_xy_add_node_same.
      - apply has_xy_add_node. eapply Hst. exact Hin. }
    destruct (IH st1 H1) as (Ha & Hb & Hc & Hd).
    split; [exact Ha |]. split; [| split].
    + intros m Hm. apply Hb. unfold st1. simpl. apply has_xy_add_node. exact Hm.
    + intros j' [<- | Hin]; [| apply Hc; exact Hin].
      apply Hb. unfold st1. simpl. apply has_xy_add_node_same.
    + rewrite Hd. reflexivity.
Qed.

Lemma collect_road_nodes_ids (coords : list Point) :
  forall n i st road_nodes st' road_nodes',
    collect_road_nodes round2 junctions n i coords st road_nodes
      = (st', road_nodes') ->
    ids_ok junctions st ->
    (forall id p, In (id, p) road_nodes -> has_xy (G st) id) ->
    ids_ok junctions st' /\
    (forall m, has_xy (G st) m -> has_xy (G st') m) /\
    (forall id p, In (id, p) road_nodes' -> has_xy (G st') id) /\
    nx.edges (G st') = nx.edges (G st).
Proof.
  induction coords as [| [x y] coords IH];
    intros n i st rn st' rn' Hc Hids Hrn; cbn [collect_road_nodes] in Hc.
  - injection Hc as <- <-. repeat split; auto; apply Hids.
  - destruct (nx.get key_eqb (rounded_key round2 (x, y)) (junction_points st))
      as [id |] eqn:Hget.
    { apply IH in Hc; [exact Hc | exact Hids |].
      intros id' p Hin. apply in_app_or in Hin. destruct Hin as [Hin | [Heq | []]].
      - eapply Hrn. exact Hin.
      - injection Heq as <- <-. destruct Hids as [Hjp _].
        eapply Hjp. eapply get_In; [exact key_eqb_eq | exact Hget]. }
    destruct (kd_query junctions (x, y)) as [[distance idx] |].
    2: { injection Hc as <- <-. repeat split; auto; apply Hids. }
    destruct (Rleb distance 1).
    { destruct (nth_error junctions idx) as [j |] eqn:Hnth.
      2: { injection Hc as <- <-. repeat split; auto; apply Hids. }
      apply IH in Hc; [exact Hc | exact Hids |].
      intros id' p Hin. apply in_app_or in Hin. destruct Hin as [Hin | [Heq | []]].
      - eapply Hrn. exact Hin.
      - injection Heq as <- <-. destruct Hids as [_ Hj].
        apply Hj. eapply nth_error_In. exact Hnth. }
    destruct ((i =? 0)%nat || (i =? n - 1)%nat
              || (i mod Nat.max 1 (n / 10) =? 0)%nat).
    2: { apply IH in Hc; assumption. }
    set (id := "R_" ++ str (node_counter st)) in *.
    set (st1 := mk_build _ _ _) in Hc.
    assert (Hmono : forall m, has_xy (G st) m -> has_xy (G st1) m).
    { intros m Hm. unfold st1. simpl. apply has_xy_add_node. exact Hm. }
    assert (Hids1 : ids_ok junctions st1).
    { destruct Hids as [Hjp Hj]. split.
      - intros k id' Hin. unfold st1 in Hin. simpl in Hin.
        apply In_assign in Hin. destruct Hin as [Heq | Hin].
        + injection Heq as _ ->. unfold st1. simpl. apply has_xy_add_node_same.
        + apply Hmono. eapply Hjp. exact Hin.
      - intros j Hin. apply Hmono. apply Hj. exact Hin. }
    apply IH in Hc; [| exact Hids1 |].
    + destruct Hc as (Ha & Hb & Hc & Hd).
      split; [exact Ha |]. split; [| split; [exact Hc |]].
      * intros m Hm. apply Hb, Hmono. exact Hm.
      * rewrite Hd. reflexivity.
    + intros id' p Hin. apply in_app_or in Hin. destruct Hin as [Hin | [Heq | []]].
      * apply Hmono. eapply Hrn. exact Hin.
      * injection Heq as <- <-. unfold st1. simpl. apply has_xy_add_node_same.
Qed.

Lemma add_segment_ok (road : Road) (coords : list Point) (n i : nat)
    (start_node end_node : string * Point) (g : nx.DiGraph) :
  In road roads ->
  edges_ok roads g ->
  has_xy g (fst start_node) -> has_xy g (fst end_node) ->
  edges_ok roads (add_segment road coords n i start_node end_node g) /\
  (forall m, has_xy g m ->
     has_xy (add_segment road coords n i start_node end_node g) m).
Proof.
  intros Hroad Hok Hs He. unfold add_segment.
  destruct start_node as [s sc], end_node as [e ec]. simpl in Hs, He.
  destruct (String.eqb s e); [split; auto |]. cbv zeta.
  set (d := nx.mk_edge _ _ _ _ _).
  assert (Hd : edge_from roads d).
  { exists road. unfold d. simpl. repeat split. exact Hroad. }
  pose proof (edges_ok_add_edge roads g s e d Hok Hd Hs He) as Hok1.
  destruct (String.eqb (traffic_direction road) "Both directions").
  - destruct (nx.get_edge (nx.add_edge g s e d) s e) as [attrs |] eqn:Hget.
    + split.
      * apply edges_ok_add_edge; [exact Hok1 | | |].
        -- apply get_In in Hget; [| exact edge_key_eqb_eq].
           apply (Hok1 s e attrs Hget).
        -- apply has_xy_add_edge. exact He.
        -- apply has_xy_add_edge. exact Hs.
      * intros m Hm. apply has_xy_add_edge, has_xy_add_edge. exact Hm.
    + split; [exact Hok1 |]. intros m Hm. apply has_xy_add_edge. exact Hm.
  - split; [exact Hok1 |]. intros m Hm. apply has_xy_add_edge. exact Hm.
Qed.

Lemma add_segments_ok (road : Road) (coords : list Point) (n : nat)
    (road_nodes : list (string * Point)) :
  In road roads ->
  forall i g,
    edges_ok roads g ->
    (forall id p, In (id, p) road_nodes -> has_xy g id) ->
    edges_ok roads (add_segments road coords n i road_nodes g) /\
    (forall m, has_xy g m ->
       has_xy (add_segments road coords n i road_nodes g) m).
Proof.
  intros Hroad. induction road_nodes as [| a rest IH]; intros i g Hok Hn.
  - simpl. split; auto.
  - destruct rest as [| b rest'].
    + simpl. split; auto.
    + change (add_segments road coords n i (a :: b :: rest') g)
        with (add_segments road coords n (S i) (b :: rest')
                (add_segment road coords n i a b g)).
      destruct (add_segment_ok road coords n i a b g Hroad Hok) as [Hok1 Hm1].
      * destruct a as [ida pa]. eapply Hn. left. reflexivity.
      * destruct b as [idb pb]. eapply Hn. right. left. reflexivity.
      * destruct (IH (S i) (add_segment road coords n i a b g) Hok1) as [Hok2 Hm2].
        -- intros id p Hin. apply Hm1. eapply Hn. right. exact Hin.
        -- split; [exact Hok2 |]. intros m Hm. apply Hm2, Hm1. exact Hm.
Qed.

Lemma process_road_ok (st : BuildState) (road : Road) :
  In road roads ->
  ids_ok junctions st -> edges_ok roads (G st) ->
  ids_ok junctions (process_road round2 junctions st road) /\
  edges_ok roads (G (process_road round2 junctions st road)).
Proof.
  intros Hroad Hids Hok. unfold process_road.
  destruct (geometry road) as [coords |]; [| split; assumption].
  destruct (List.length coords <? 2)%nat; [split; assumption |].
  destruct (collect_road_nodes round2 junctions (List.length coords) 0 coords st [])
    as [st' road_nodes] eqn:Hc.
  apply collect_road_nodes_ids in Hc; [| exact Hids | intros id p []].
  destruct Hc as (Hids' & Hmono & Hrn & Hedges).
  assert (Hok' : edges_ok roads (G st')).
  { intros u v d Hin. rewrite Hedges in Hin.
    destruct (Hok u v d Hin) as (H1 & H2 & H3).
    split; [exact H1 |]. split; apply Hmono; assumption. }
  destruct (List.length road_nodes <? 2)%nat; [split; assumption |].
  destruct (add_segments_ok road coords (List.length road_nodes) road_nodes
              Hroad 0%nat (G st') Hok' Hrn) as [Hok2 Hm2].
  split; [| exact Hok2].
  destruct Hids' as [Hjp Hj]. split; simpl.
  - intros k id Hin. apply Hm2. eapply Hjp. exact Hin.
  - intros j Hin. apply Hm2. apply Hj. exact Hin.
Qed.

Lemma process_roads_ok (rs : list Road) :
  incl rs roads ->
  forall st,
    ids_ok junctions st -> edges_ok roads (G st) ->
    edges_ok roads (G (process_roads round2 junctions rs st)).
Proof.
  unfold process_roads.
  induction rs as [| road rs IH]; intros Hincl st Hids Hok; simpl; [exact Hok |].
  destruct (process_road_ok st road) as [Hids' Hok']; try assumption.
  { apply Hincl. left. reflexivity. }
  apply IH; try assumption. intros r Hr. apply Hincl. right. exact Hr.
Qed.

Lemma build_state_ok : edges_ok roads (G (build_state round2 roads junctions)).
Proof.
  unfold build_state.
  destruct (add_junctions_ids junctions (mk_build nx.empty [] 0))
    as (Hjp & _ & Hj & He).
  { intros k id []. }
  apply process_roads_ok.
  - apply incl_refl.
  - split; assumption.
  - intros u v d Hin. rewrite He in Hin. destruct Hin.
Qed.

End Invariant.

Lemma speed_kph_cases (road : Road) :
  (forall s, speed_limit road = Some s -> 0 < s -> speed_kph road = s) /\
  (speed_limit road = None \/ (exists s, speed_limit road = Some s /\ s <= 0) ->
   speed_kph road = 40) /\
  0 < speed_kph road.
Proof.
  unfold speed_kph. destruct (speed_limit road) as [s |].
  - unfold Reqb, Rltb. destruct (Req_dec_T s 0), (Rlt_dec 0 s); simpl;
      repeat split; try lra.
    all: try (intros s' Hs' Hpos; injection Hs' as ->; lra).
    all: try (intros [Hn | (s' & Hs' & Hle)]; [discriminate | injection Hs' as ->; lra]).
  - repeat split; try lra. intros s H; discriminate.
Qed.

Lemma built_graph (round2 : R -> R) (isc : nx.DiGraph -> bool)
    (lcc : nx.DiGraph -> nat) (roads : list Road) (junctions : list Junction)
    (g : nx.DiGraph) (printed : list Line) :
  create_road_network_graph round2 isc lcc roads junctions = Built g printed ->
  g = G (build_state round2 roads junctions).
Proof.
  unfold create_road_network_graph. destruct junctions as [| j js]; [discriminate |].
  destruct (nx.number_of_nodes _ =? 0)%nat; [discriminate |].
  destruct (isc _); intros H; injection H as <- _; reflexivity.
Qed.

(** C6.  Every edge of a built graph stems from a segment of one of the
    roads: its speed is that road's speed limit when the limit is present
    and positive and 40 otherwise, its travel time is
    [(length / 1000) / (speed / 60)], both end points are nodes of the graph
    (with coordinates), and the travel time is positive when the length
    is. *)
Theorem C6_edge_attributes :
  forall (round2 : R -> R) (is_strongly_connected : nx.DiGraph -> bool)
         (largest_cc_len : nx.DiGraph -> nat)
         (roads : list Road) (junctions : list Junction)
         (g : nx.DiGraph) (printed : list Line)
         (u v : string) (d : nx.edge_data),
    create_road_network_graph round2 is_strongly_connected largest_cc_len
      roads junctions = Built g printed ->
    In ((u, v), d) (nx.edges g) ->
    (exists road, In road roads /\ nx.edge_road_id d = road_id road /\
       (forall s, speed_limit road = Some s -> 0 < s -> nx.edge_speed d = s) /\
       (speed_limit road = None \/
        (exists s, speed_limit road = Some s /\ s <= 0) ->
        nx.edge_speed d = 40)) /\
    nx.edge_travel_time d = (nx.edge_length d / 1000) / (nx.edge_speed d / 60) /\
    has_xy g u /\ has_xy g v /\
    (0 < nx.edge_length d -> 0 < nx.edge_travel_time d).
Proof.
  intros round2 isc lcc roads junctions g printed u v d Hb Hin.
  apply built_graph in Hb. subst g.
  destruct (build_state_ok round2 junctions roads u v d Hin)
    as ((road & Hroad & Hid & Hsp & Htt) & Hu & Hv).
  destruct (speed_kph_cases road) as (Hpos & Hdef & Hgt).
  split; [| split; [exact Htt | split; [exact Hu | split; [exact Hv |]]]].
  - exists road. split; [exact Hroad |]. split; [exact Hid |].
    rewrite Hsp. split; assumption.
  - intros Hlen. rewrite Htt, Hsp.
    apply Rdiv_lt_0_compat; lra.
Qed.

(** *** The build of two small inputs, step by step *)

Ltac Rdecide :=
  repeat match goal with
  | |- context [Reqb ?a ?b] =>
      first [rewrite (Reqb_true a b) by lra | rewrite (Reqb_false a b) by lra]
  | |- context [Rltb ?a ?b] =>
      first [rewrite (Rltb_true a b) by lra | rewrite (Rltb_false a b) by lra]
  end.

Ltac build_step :=
  cbv [create_road_network_graph build_state process_roads fold_left
       add_junctions process_road collect_road_nodes add_segments add_segment
       rounded_key key_eqb speed_kph speed_limit
       nx.assign nx.get nx.add_node nx.add_edge nx.touch_node nx.get_edge
       nx.empty nx.edge_key_eqb nx.number_of_nodes nx.number_of_edges
       G junction_points node_counter geometry
       node_id junction_geometry traffic_direction road_id
       examples.exact examples.connected examples.no_component
       examples.junctions_AB examples.road_AB examples.road_BA_one_way
       fst snd nx.nodes nx.edges List.length Nat.ltb Nat.leb Nat.eqb
       Nat.sub Nat.add andb orb negb app String.eqb Ascii.eqb Bool.eqb
       String.append];
  Rdecide.

Lemma build_AB :
  create_road_network_graph examples.exact examples.connected
    examples.no_component [examples.road_AB] examples.junctions_AB
  = Built examples.graph_AB
      [Adding_junctions; Creating_spatial_index; Processing_roads;
       Created_graph 2 2].
Proof. do 4 build_step. reflexivity. Qed.



Lemma C6_witness :
  nx.edge_travel_time examples.edge_AB
    = (nx.edge_length examples.edge_AB / 1000) / (nx.edge_speed examples.edge_AB / 60) /\
  has_xy examples.graph_AB "J_A" /\ has_xy examples.graph_AB "J_B".
Proof.
  destruct (C6_edge_attributes examples.exact examples.connected
              examples.no_component [examples.road_AB] examples.junctions_AB
              examples.graph_AB _ "J_A" "J_B" examples.edge_AB build_AB
              (or_introl eq_refl))
    as (_ & Htt & Hu & Hv & _).
  repeat split; assumption.
Defined.

(** ** C7: the two directions of a bidirectional road *)

Lemma get_edge_add_edge_same (g : nx.DiGraph) (u v : string) (d : nx.edge_data) :
  nx.get_edge (nx.add_edge g u v d) u v = Some d.
Proof.
  unfold nx.get_edge, nx.add_edge. simpl.
  apply get_assign_same. exact edge_key_eqb_eq.
Qed.




Section Mirror.

Variable round2 : R -> R.
Variable junctions : list Junction.

Lemma collect_road_nodes_edges (coords : list Point) :
  forall n i st road_nodes st' road_nodes',
    collect_road_nodes round2 junctions n i coords st road_nodes
      = (st', road_nodes') ->
    nx.edges (G st') = nx.edges (G st).
Proof.
  induction coords as [| [x y] coords IH];
    intros n i st rn st' rn' Hc; cbn [collect_road_nodes] in Hc.
  - injection Hc as <- _. reflexivity.
  - destruct (nx.get key_eqb (rounded_key round2 (x, y)) (junction_points st)).
    { eapply IH. exact Hc. }
    destruct (kd_query junctions (x, y)) as [[distance idx] |].
    2: { injection Hc as <- _. reflexivity. }
    destruct (Rleb distance 1).
    { destruct (nth_error junctions idx).
      - eapply IH. exact Hc.
      - injection Hc as <- _. reflexivity. }
    destruct ((i =? 0)%nat || (i =? n - 1)%nat
              || (i mod Nat.max 1 (n / 10) =? 0)%nat).
    + apply IH in Hc. rewrite Hc. reflexivity.
    + eapply IH. exact Hc.
Qed.











End Mirror.




(** ** C9: where a vehicle is, by status *)

Import system.






Section Steps.

Variable shortest_path :
  nx.DiGraph -> option string -> option string -> list string + exn.





End Steps.





Lemma store_vehicle_Forall (P : Vehicle -> Prop) (vid : string) (v' : Vehicle)
    (vs : list Vehicle) :
  Forall P vs -> P v' -> Forall P (store_vehicle vid v' vs).
Proof.
  intros Hall Hv'. induction Hall as [| v vs Hv Hvs IH]; simpl; [constructor |].
  destruct (String.eqb (vehicle_id v) vid); constructor; assumption.
Qed.









(** *** A run of the town: startup, one dispatch, one loop iteration *)

Lemma town_startup :
  initialize_vehicles (new_simulator examples.graph_N examples.fire_station) []
  = ((examples.town 0 examples.truck_idle, []), None).
Proof. reflexivity. Qed.

Lemma town_dispatch :
  api.dispatch_vehicle examples.plane examples.stay_put "00:01Z"
    (mk_request "fire_truck" 0 0)
    (mk_controller (examples.town 0 examples.truck_idle) [])
  = (mk_controller (examples.town 0 examples.truck_responding)
       [mk_entry "00:01Z" [get_state examples.truck_responding]],
     inl (mk_response "Closest fire_truck (FT-1) dispatched" "FT-1" 1 0)).
Proof. reflexivity. Qed.

Lemma truck_arrives :
  update_movement examples.graph_N (1 * 100) 0 examples.truck_responding
  = (examples.truck_handling, None).
Proof.
  unfold update_movement. simpl. unfold approach. simpl.
  rewrite Rleb_true; [reflexivity |].
  apply hypot_le; lra.
Qed.

Lemma town_tick :
  simulation_tick examples.stay_put
    (examples.town 0 examples.truck_responding) []
  = ((examples.town (0 + 1 * 100) examples.truck_handling, []), None).
Proof.
  unfold simulation_tick. cbv zeta.
  change (real_time_step (examples.town 0 examples.truck_responding)) with 1.
  change (simulation_speed (examples.town 0 examples.truck_responding)) with 100.
  change (vehicles (examples.town 0 examples.truck_responding))
    with [examples.truck_responding].
  unfold step_vehicles, step_vehicle.
  change (status_in (status examples.truck_responding) [responding; returning])
    with true.
  cbv iota.
  change (graph (examples.town 0 examples.truck_responding)) with examples.graph_N.
  change (simulated_time (examples.town 0 examples.truck_responding)) with 0.
  rewrite truck_arrives. reflexivity.
Qed.

Lemma town_reaches_handling :
  reachable examples.plane examples.stay_put examples.graph_N
    examples.fire_station
    (mk_controller (examples.town (0 + 1 * 100) examples.truck_handling)
       [mk_entry "00:01Z" [get_state examples.truck_responding]]).
Proof.
  apply (reach_tick examples.plane examples.stay_put examples.graph_N
           examples.fire_station
           (mk_controller (examples.town 0 examples.truck_responding)
              [mk_entry "00:01Z" [get_state examples.truck_responding]])
           [] [] _ None).
  - apply (reach_dispatch examples.plane examples.stay_put examples.graph_N
             examples.fire_station
             (mk_controller (examples.town 0 examples.truck_idle) [])
             _ "00:01Z" (mk_request "fire_truck" 0 0)
             (inl (mk_response "Closest fire_truck (FT-1) dispatched" "FT-1" 1 0))).
    + apply (reach_startup examples.plane examples.stay_put examples.graph_N
               examples.fire_station [] []).
      exact town_startup.
    + exact town_dispatch.
  - exact town_tick.
Qed.



(** * Further properties of the code *)

Import notions.

(** ** traffic.py *)

(** X1.  [compute_delay_factor] never returns less than 1.  With a positive
    current speed it is [freeFlow / speed], raised to 1 when the traffic is
    faster than free flow; with a missing or non-positive speed it is
    [default_max], raised to 1 as well. *)
Theorem X1_delay_factor :
  forall (traffic_json : traffic.TrafficJson) (default_max : R),
    1 <= traffic.compute_delay_factor traffic_json default_max /\
    (forall flow speed free_flow,
       traffic.currentFlow traffic_json = Some flow ->
       traffic.flow_speed flow = Some speed ->
       traffic.flow_freeFlow flow = Some free_flow ->
       0 < speed ->
       traffic.compute_delay_factor traffic_json default_max
         = Rmax (free_flow / speed) 1) /\
    ((traffic.currentFlow traffic_json = None \/
      exists flow, traffic.currentFlow traffic_json = Some flow /\
        (traffic.flow_speed flow = None \/
         exists speed, traffic.flow_speed flow = Some speed /\ speed <= 0)) ->
     traffic.compute_delay_factor traffic_json default_max = Rmax default_max 1).
Proof.
  intros tj dm.
  assert (Hclamp : forall x, (if Rltb x 1 then 1 else x) = Rmax x 1).
  { intros x. unfold Rltb, Rmax.
    destruct (Rlt_dec x 1), (Rle_dec x 1); try reflexivity; lra. }
  unfold traffic.compute_delay_factor. cbv zeta. rewrite Hclamp.
  split; [apply Rmax_r | split].
  - intros flow speed ff Hf Hs Hff Hpos. rewrite Hf. simpl. rewrite Hs, Hff. simpl.
    rewrite Rltb_true by exact Hpos. reflexivity.
  - intros [Hnone | (flow & Hf & [Hs | (speed & Hs & Hle)])].
    + rewrite Hnone. simpl. rewrite Rltb_false by lra. reflexivity.
    + rewrite Hf. simpl. rewrite Hs. simpl. rewrite Rltb_false by lra. reflexivity.
    + rewrite Hf. simpl. rewrite Hs. simpl. rewrite Rltb_false by exact Hle.
      reflexivity.
Qed.

(** The third case of the test file: a standing queue gets the default
    factor 10. *)
Lemma X1_witness :
  traffic.compute_delay_factor
    (traffic.mk_traffic (Some (traffic.mk_flow (Some 0) (Some 10)))) 10
  = Rmax 10 1.
Proof.
  apply (proj2 (proj2 (X1_delay_factor
           (traffic.mk_traffic (Some (traffic.mk_flow (Some 0) (Some 10)))) 10))).
  right. eexists. split; [reflexivity |]. right. exists 0. split; [reflexivity | lra].
Defined.

(** ** find_nearest_node *)

Section Nearest.

Variable point : Point.

Let dist (d : nx.node_data) : R := distance_to_node point d.

Lemma nearest_scan_first (ns : list (string * option nx.node_data)) :
  (forall n d, In (n, d) ns -> d <> None) ->
  forall best, exists r,
    nearest_scan point ns best = inl r /\
    match r with
    | None => best = None /\ ns = []
    | Some (d, n) =>
        (best = Some (d, n) /\
         forall m dm, In (m, Some dm) ns -> d <= dist dm) \/
        (exists data pre post,
           ns = (pre ++ (n, Some data) :: post)%list /\ d = dist data /\
           (forall m dm, In (m, Some dm) pre -> d < dist dm) /\
           (forall m dm, In (m, Some dm) post -> d <= dist dm) /\
           (forall db nb, best = Some (db, nb) -> d < db))
    end.
Proof.
  induction ns as [| [n0 [d0 |]] rest IH]; intros Hall best.
  - exists best. split; [reflexivity |].
    destruct best as [[d n] |]; [left | split; reflexivity].
    split; [reflexivity | intros m dm []].
  - assert (Hrest : forall n d, In (n, d) rest -> d <> None).
    { intros n d Hin. apply (Hall n d). right. exact Hin. }
    cbn [nearest_scan]. fold (distance_to_node point d0). fold (dist d0).
    destruct best as [[db nb] |].
    + destruct (Rltb (dist d0) db) eqn:E.
      * apply Rltb_spec in E.
        destruct (IH Hrest (Some (dist d0, n0))) as (r & Hr & Hspec).
        exists r. split; [exact Hr |].
        destruct r as [[d n] |]; [| destruct Hspec; discriminate].
        right. destruct Hspec as [[Heq Hge] | (data & pre & post & -> & -> & Hpre & Hpost & Hb)].
        -- injection Heq as <- <-. exists d0, [], rest.
           split; [reflexivity |]. split; [reflexivity |].
           split; [intros m dm [] |]. split; [exact Hge |].
           intros db' nb' Hb'. injection Hb' as <- <-. exact E.
        -- pose proof (Hb _ _ eq_refl) as Hlt.
           exists data, ((n0, Some d0) :: pre), post.
           split; [reflexivity |]. split; [reflexivity |].
           split; [| split; [exact Hpost |]].
           ++ intros m dm [Heq | Hin]; [injection Heq as <- <-; exact Hlt |].
              eapply Hpre. exact Hin.
           ++ intros db' nb' Hb'. injection Hb' as <- <-. lra.
      * assert (Hle : db <= dist d0).
        { unfold Rltb in E. destruct (Rlt_dec (dist d0) db); [discriminate | lra]. }
        destruct (IH Hrest (Some (db, nb))) as (r & Hr & Hspec).
        exists r. split; [exact Hr |].
        destruct r as [[d n] |]; [| destruct Hspec; discriminate].
        destruct Hspec as [[Heq Hge] | (data & pre & post & -> & -> & Hpre & Hpost & Hb)].
        -- injection Heq as <- <-. left. split; [reflexivity |].
           intros m dm [Heq | Hin]; [injection Heq as <- <-; exact Hle |].
           eapply Hge. exact Hin.
        -- pose proof (Hb _ _ eq_refl) as Hlt. right.
           exists data, ((n0, Some d0) :: pre), post.
           split; [reflexivity |]. split; [reflexivity |].
           split; [| split; [exact Hpost | exact Hb]].
           intros m dm [Heq | Hin]; [injection Heq as <- <-; lra |].
           eapply Hpre. exact Hin.
    + destruct (IH Hrest (Some (dist d0, n0))) as (r & Hr & Hspec).
      exists r. split; [exact Hr |].
      destruct r as [[d n] |]; [| destruct Hspec; discriminate].
      right. destruct Hspec as [[Heq Hge] | (data & pre & post & -> & -> & Hpre & Hpost & Hb)].
      * injection Heq as <- <-. exists d0, [], rest.
        split; [reflexivity |]. split; [reflexivity |].
        split; [intros m dm [] |]. split; [exact Hge |].
        intros db' nb' Hb'. discriminate.
      * pose proof (Hb _ _ eq_refl) as Hlt.
        exists data, ((n0, Some d0) :: pre), post.
        split; [reflexivity |]. split; [reflexivity |].
        split; [| split; [exact Hpost |]].
        -- intros m dm [Heq | Hin]; [injection Heq as <- <-; exact Hlt |].
           eapply Hpre. exact Hin.
        -- intros db' nb' Hb'. discriminate.
  - exfalso. apply (Hall n0 None); [left |]; reflexivity.
Qed.

Lemma nearest_scan_bare (ns : list (string * option nx.node_data)) :
  (exists n, In (n, None) ns) ->
  forall best, nearest_scan point ns best = inr (KeyError "x").
Proof.
  induction ns as [| [n0 [d0 |]] rest IH]; intros [n Hin] best.
  - destruct Hin.
  - cbn [nearest_scan]. apply IH. destruct Hin as [Heq | Hin]; [discriminate |].
    exists n. exact Hin.
  - reflexivity.
Qed.

End Nearest.

(** X2.  On a graph whose nodes all carry coordinates, [find_nearest_node]
    returns [None] exactly for the graph without nodes, and otherwise a
    node at minimal Euclidean distance from the point, the first such node
    in the iteration order of the graph.  A node without coordinates makes
    it raise [KeyError]. *)
Theorem X2_find_nearest_node :
  forall (s : VehicleSimulator) (point : Point),
    (nodes_complete (graph s) ->
     (nx.nodes (graph s) = [] -> find_nearest_node s point = inl None) /\
     (nx.nodes (graph s) <> [] ->
      exists n data pre post,
        find_nearest_node s point = inl (Some n) /\
        nx.nodes (graph s) = (pre ++ (n, Some data) :: post)%list /\
        (forall m dm, In (m, Some dm) (nx.nodes (graph s)) ->
           distance_to_node point data <= distance_to_node point dm) /\
        (forall m dm, In (m, Some dm) pre ->
           distance_to_node point data < distance_to_node point dm))) /\
    ((exists n, In (n, None) (nx.nodes (graph s))) ->
     find_nearest_node s point = inr (KeyError "x")).
Proof.
  intros s point. unfold find_nearest_node. split.
  - intros Hc.
    destruct (nearest_scan_first point (nx.nodes (graph s)) Hc None)
      as (r & Hr & Hspec).
    rewrite Hr. split.
    + intros Hnil. rewrite Hnil in Hr. simpl in Hr. injection Hr as <-.
      reflexivity.
    + intros Hne. destruct r as [[d n] |]; [| destruct Hspec; contradiction].
      destruct Hspec as [[Heq _] | (data & pre & post & Hns & -> & Hpre & Hpost & _)];
        [discriminate |].
      exists n, data, pre, post. split; [reflexivity |]. split; [exact Hns |].
      split; [| exact Hpre].
      intros m dm Hin. rewrite Hns in Hin. apply in_app_or in Hin.
      destruct Hin as [Hin | [Heq | Hin]].
      * apply Rlt_le. eapply Hpre. exact Hin.
      * injection Heq as _ <-. lra.
      * eapply Hpost. exact Hin.
  - intros Hbare. rewrite (nearest_scan_bare point _ Hbare). reflexivity.
Qed.

Lemma graph_N_complete : nodes_complete examples.graph_N.
Proof. intros n d [H | []]. injection H as _ <-. discriminate. Qed.

Lemma X2_witness :
  exists n data pre post,
    find_nearest_node (examples.town 0 examples.truck_idle) (3, 4)
      = inl (Some n) /\
    nx.nodes examples.graph_N = (pre ++ (n, Some data) :: post)%list /\
    (forall m dm, In (m, Some dm) (nx.nodes examples.graph_N) ->
       distance_to_node (3, 4) data <= distance_to_node (3, 4) dm) /\
    (forall m dm, In (m, Some dm) pre ->
       distance_to_node (3, 4) data < distance_to_node (3, 4) dm).
Proof.
  apply (proj1 (X2_find_nearest_node (examples.town 0 examples.truck_idle) (3, 4))).
  - exact graph_N_complete.
  - discriminate.
Defined.

(** ** generate_patrol_route *)

Lemma random_choice_none (draws : list nat) (seq : list string) :
  fst (random_choice draws seq) = None -> seq = [].
Proof.
  unfold random_choice. destruct seq as [| a seq]; [reflexivity |].
  destruct draws as [| d draws]; cbn [fst].
  - discriminate.
  - intros H. apply nth_error_None in H.
    pose proof (Nat.mod_upper_bound d (List.length (a :: seq))) as Hb.
    simpl in *. lia.
Qed.

Lemma random_choice_In (draws : list nat) (seq : list string) (x : string) :
  fst (random_choice draws seq) = Some x -> In x seq.
Proof.
  unfold random_choice. destruct draws as [| d draws]; cbn [fst];
    intros H; eapply nth_error_In; exact H.
Qed.

Lemma patrol_walk_spec (g : nx.DiGraph) (k : nat) :
  forall n draws,
    (List.length (fst (patrol_walk g k n draws)) <= k)%nat /\
    walk_from g n (fst (patrol_walk g k n draws)) /\
    ((List.length (fst (patrol_walk g k n draws)) < k)%nat ->
     nx.neighbors g (walk_end n (fst (patrol_walk g k n draws))) = []).
Proof.
  induction k as [| k IH]; intros n draws; simpl.
  - repeat split; [lia | lia].
  - destruct (random_choice draws (nx.neighbors g n)) as [[next |] draws'] eqn:E.
    + specialize (IH next draws').
      destruct (patrol_walk g k next draws') as [rest draws'']. simpl in *.
      destruct IH as (Hlen & Hwalk & Hend).
      split; [lia |]. split.
      * split; [| exact Hwalk].
        apply (random_choice_In draws). rewrite E. reflexivity.
      * intros Hlt. apply Hend. lia.
    + simpl. split; [lia |]. split; [exact I |]. intros _.
      apply (random_choice_none draws). rewrite E. reflexivity.
Qed.

(** X3.  A patrol route that [generate_patrol_route] returns has at most
    10 nodes and is a walk along edges of the graph that starts at a
    successor of the node nearest to the start location; it has fewer than
    10 nodes only when the walk ended in a node without successors. *)
Theorem X3_patrol_route_is_walk :
  forall (s : VehicleSimulator) (start_location : Point)
         (draws draws' : list nat) (route : list string),
    generate_patrol_route s start_location draws = inl (route, draws') ->
    exists start_node,
      find_nearest_node s start_location = inl (Some start_node) /\
      (List.length route <= 10)%nat /\
      walk_from (graph s) start_node route /\
      ((List.length route < 10)%nat ->
       nx.neighbors (graph s) (walk_end start_node route) = []).
Proof.
  intros s start draws draws' route. unfold generate_patrol_route.
  destruct (find_nearest_node s start) as [[n |] | e]; try discriminate.
  pose proof (patrol_walk_spec (graph s) 10 n draws) as Hspec.
  remember (patrol_walk (graph s) 10 n draws) as w eqn:Hw. clear Hw.
  intros H. injection H as ->.
  exists n. split; [reflexivity | exact Hspec].
Qed.

(** On the graph with the one node [N] and no edge the patrol is empty. *)
Lemma X3_witness :
  exists start_node,
    find_nearest_node (examples.town 0 examples.truck_idle) (10, 0)
      = inl (Some start_node) /\
    (List.length (@nil string) <= 10)%nat /\
    walk_from examples.graph_N start_node [] /\
    ((List.length (@nil string) < 10)%nat ->
     nx.neighbors examples.graph_N (walk_end start_node []) = []).
Proof.
  apply (X3_patrol_route_is_walk (examples.town 0 examples.truck_idle) (10, 0)
           [] [] []).
  reflexivity.
Defined.

(** ** initialize_vehicles *)

Lemma str_inj (n k : nat) : str n = str k -> n = k.
Proof.
  unfold str. intros H.
  apply (f_equal NilEmpty.uint_of_string) in H. rewrite !NilEmpty.usu in H.
  injection H as H. apply (f_equal Nat.of_uint) in H.
  rewrite !Unsigned.of_to in H. exact H.
Qed.

Lemma vehicle_id_inj (c c' : VehicleClass) (n k : nat) :
  id_prefix c ++ str n = id_prefix c' ++ str k -> n = k.
Proof.
  destruct c, c'; simpl; intros H; try discriminate;
    injection H as H; apply str_inj; exact H.
Qed.

Lemma ids_distinct_add (s : VehicleSimulator) (next : nat) (d d' : list nat)
    (c : VehicleClass) (v : Vehicle) :
  ids_distinct (mk_init s next d) ->
  vehicle_id v = id_prefix c ++ str next ->
  ids_distinct (mk_init (set_vehicles (vehicles s ++ [v]) s) (S next) d').
Proof.
  intros [Hnd Hfresh] Hid. simpl in *. split; simpl.
  - rewrite map_app. simpl.
    rewrite <- (rev_involutive (map vehicle_id (vehicles s) ++ [vehicle_id v])).
    apply NoDup_rev. rewrite rev_app_distr. simpl. constructor.
    + rewrite <- in_rev. intros Hin. apply in_map_iff in Hin.
      destruct Hin as (u & Hu & Hin).
      destruct (Hfresh u Hin) as (c' & k & Hk & Hlt).
      rewrite Hk, Hid in Hu. apply vehicle_id_inj in Hu. lia.
    + apply NoDup_rev. exact Hnd.
  - intros u Hin. apply in_app_or in Hin. destruct Hin as [Hin | [<- | []]].
    + destruct (Hfresh u Hin) as (c' & k & Hk & Hlt).
      exists c', k. split; [exact Hk | lia].
    + exists c, next. split; [exact Hid | lia].
Qed.

Lemma start_patrol_at_home (patrol : list string) (g : nx.DiGraph)
    (v : Vehicle) :
  at_home v -> class v = PoliceCar ->
  at_home (fst (start_patrol patrol g v)) /\
  vehicle_id (fst (start_patrol patrol g v)) = vehicle_id v.
Proof.
  intros (Hloc & Hr & Hd & Hs) Hc. unfold start_patrol.
  destruct (status_eqb (status v) idle).
  - unfold _update_patrol_geometry. cbv zeta.
    destruct (gather_geometry g _ []) as [geom [e |]]; simpl;
      (split; [| reflexivity]); repeat split; auto.
  - split; [| reflexivity]. repeat split; assumption.
Qed.

Lemma is_police_class (c : VehicleClass) : is_police c = true -> c = PoliceCar.
Proof. destruct c; simpl; intros H; try discriminate; reflexivity. Qed.

Lemma assign_vehicles_inv (f : Facility) (c : VehicleClass) (n : nat) :
  forall st,
    ids_distinct st -> Forall at_home (vehicles (init_sim st)) ->
    ids_distinct (fst (assign_vehicles f c n st)) /\
    Forall at_home (vehicles (init_sim (fst (assign_vehicles f c n st)))).
Proof.
  induction n as [| n IH]; intros [s next d] Hids Hhome; simpl;
    [split; assumption |].
  set (v := new_vehicle c _ _ _ _).
  assert (Hv : at_home v).
  { unfold v, at_home. simpl. repeat split. left. reflexivity. }
  assert (Hid : vehicle_id v = id_prefix c ++ str next) by reflexivity.
  destruct (is_police c) eqn:Hp.
  - destruct (generate_patrol_route _ _ _) as [[patrol draws'] | e]; simpl.
    + destruct (start_patrol_at_home patrol (graph s) v Hv (is_police_class c Hp))
        as [Hv' Hid'].
      destruct (start_patrol patrol (graph s) v) as [v' [e |]]; simpl in Hv', Hid'.
      * simpl. split.
        -- apply (ids_distinct_add s next d draws' c v' Hids). congruence.
        -- apply Forall_app. split; [exact Hhome | constructor; [exact Hv' | constructor]].
      * apply IH.
        -- apply (ids_distinct_add s next d draws' c v' Hids). congruence.
        -- simpl. apply Forall_app.
           split; [exact Hhome | constructor; [exact Hv' | constructor]].
    + split.
      * apply (ids_distinct_add s next d d c v Hids Hid).
      * apply Forall_app. split; [exact Hhome | constructor; [exact Hv | constructor]].
  - apply IH.
    + apply (ids_distinct_add s next d d c v Hids Hid).
    + simpl. apply Forall_app.
      split; [exact Hhome | constructor; [exact Hv | constructor]].
Qed.

Lemma initialize_loop_inv (fs : list Facility) :
  forall st,
    ids_distinct st -> Forall at_home (vehicles (init_sim st)) ->
    ids_distinct (fst (initialize_loop fs st)) /\
    Forall at_home (vehicles (init_sim (fst (initialize_loop fs st)))).
Proof.
  induction fs as [| f fs IH]; intros st Hids Hhome; simpl; [split; assumption |].
  destruct (facility_class (facility_type f)) as [[c n] |];
    [| apply IH; assumption].
  destruct (assign_vehicles_inv f c n st Hids Hhome) as [Hids' Hhome'].
  destruct (assign_vehicles f c n st) as [st' [e |]]; simpl in *.
  - split; assumption.
  - apply IH; assumption.
Qed.

(** X4.  Whatever [initialize_vehicles] does on an empty fleet, also when
    it stops on an exception, the vehicles it has created carry pairwise
    distinct ids, stand at their home facility with no route and no
    destination, and are idle or (police cars) patrolling. *)
Theorem X4_initialize_distinct_ids_at_home :
  forall (s : VehicleSimulator) (draws : list nat),
    vehicles s = [] ->
    NoDup (map vehicle_id
             (vehicles (fst (fst (initialize_vehicles s draws))))) /\
    Forall at_home (vehicles (fst (fst (initialize_vehicles s draws)))).
Proof.
  intros s draws Hs. unfold initialize_vehicles.
  destruct (initialize_loop_inv (facilities s) (mk_init s 1 draws)) as [Hids Hhome].
  - split; simpl; rewrite Hs; [constructor | intros v []].
  - simpl. rewrite Hs. constructor.
  - destruct (initialize_loop _ _) as [st e]. simpl in *.
    split; [apply Hids | exact Hhome].
Qed.

Lemma X4_witness :
  NoDup (map vehicle_id
           (vehicles (fst (fst (initialize_vehicles
              (new_simulator examples.graph_N examples.fire_station) []))))) /\
  Forall at_home
    (vehicles (fst (fst (initialize_vehicles
       (new_simulator examples.graph_N examples.fire_station) [])))).
Proof.
  apply X4_initialize_distinct_ids_at_home. reflexivity.
Defined.

Lemma start_patrol_new (patrol : list string) (g : nx.DiGraph) (vid : string)
    (fid : Z) (fname : string) (floc : Point) (v' : Vehicle) :
  start_patrol patrol g (new_vehicle PoliceCar vid fid fname floc) = (v', None) ->
  started v'.
Proof.
  unfold start_patrol, _update_patrol_geometry. simpl.
  destruct (gather_geometry g patrol []) as [geom [e |]]; [discriminate |].
  intros H. injection H as <-. unfold started. simpl. split; reflexivity.
Qed.

Lemma assign_vehicles_count (f : Facility) (c : VehicleClass) (n : nat) :
  forall st st',
    assign_vehicles f c n st = (st', None) ->
    List.length (vehicles (init_sim st'))
      = (List.length (vehicles (init_sim st)) + n)%nat /\
    (Forall started (vehicles (init_sim st)) ->
     Forall started (vehicles (init_sim st'))).
Proof.
  induction n as [| n IH]; intros st st' H; simpl in H.
  - injection H as <-. split; [lia | auto].
  - destruct (is_police c) eqn:Hp.
    + apply is_police_class in Hp. subst c.
      destruct (generate_patrol_route _ _ _) as [[patrol draws'] | e];
        [| discriminate].
      destruct (start_patrol patrol _ _) as [v' [e |]] eqn:Hsp; [discriminate |].
      apply start_patrol_new in Hsp.
      apply IH in H. simpl in H. destruct H as [Hlen Hst].
      rewrite length_app in Hlen. simpl in Hlen. split; [lia |].
      intros Hall. apply Hst. apply Forall_app.
      split; [exact Hall | constructor; [exact Hsp | constructor]].
    + apply IH in H. simpl in H. destruct H as [Hlen Hst].
      rewrite length_app in Hlen. simpl in Hlen. split; [lia |].
      intros Hall. apply Hst. apply Forall_app. split; [exact Hall |].
      constructor; [| constructor].
      unfold started. simpl. rewrite Hp. split; reflexivity.
Qed.

Lemma initialize_loop_count (fs : list Facility) :
  forall st st',
    initialize_loop fs st = (st', None) ->
    List.length (vehicles (init_sim st'))
      = (List.length (vehicles (init_sim st)) + list_sum (map quota fs))%nat /\
    (Forall started (vehicles (init_sim st)) ->
     Forall started (vehicles (init_sim st'))).
Proof.
  induction fs as [| f fs IH]; intros st st' H; simpl in H.
  - injection H as <-. simpl. split; [lia | auto].
  - simpl. unfold quota at 1.
    destruct (facility_class (facility_type f)) as [[c n] |].
    + destruct (assign_vehicles f c n st) as [st1 [e |]] eqn:Ha; [discriminate |].
      apply assign_vehicles_count in Ha. destruct Ha as [Hlen1 Hst1].
      apply IH in H. destruct H as [Hlen Hst].
      split; [lia | auto].
    + apply IH in H. destruct H as [Hlen Hst]. split; [lia | auto].
Qed.

(** X5.  When [initialize_vehicles] returns normally on an empty fleet,
    the fleet has one fire truck per fire station, four ambulances per
    ambulance or paramedic facility and five police cars per police
    station; the police cars are patrolling at 40 km/h and all other
    vehicles are idle and at rest. *)
Theorem X5_initialize_quota :
  forall (s s' : VehicleSimulator) (draws draws' : list nat),
    vehicles s = [] ->
    initialize_vehicles s draws = ((s', draws'), None) ->
    List.length (vehicles s') = list_sum (map quota (facilities s)) /\
    Forall started (vehicles s').
Proof.
  intros s s' draws draws' Hs. unfold initialize_vehicles.
  destruct (initialize_loop (facilities s) (mk_init s 1 draws)) as [st e] eqn:Hl.
  intros H. injection H as <- _ ->.
  apply initialize_loop_count in Hl. simpl in Hl. rewrite Hs in Hl.
  destruct Hl as [Hlen Hst]. split; [exact Hlen |].
  apply Hst. constructor.
Qed.

Lemma X5_witness :
  List.length (vehicles (examples.town 0 examples.truck_idle))
    = list_sum (map quota examples.fire_station) /\
  Forall started (vehicles (examples.town 0 examples.truck_idle)).
Proof.
  apply (X5_initialize_quota
           (new_simulator examples.graph_N examples.fire_station)
           (examples.town 0 examples.truck_idle) [] []).
  - reflexivity.
  - exact town_startup.
Defined.

(** ** update_movement: how far a vehicle moves *)





(** ** update_movement: when it raises *)

Lemma approach_ok (loc target : Point) (m : R) :
  0 <= m -> exists q reached, approach loc target m = inl (q, reached).
Proof.
  intros Hm. unfold approach.
  destruct (Rleb _ m) eqn:E; [eexists; eexists; reflexivity |].
  assert (m < hypot (fst target - fst loc) (snd target - snd loc)).
  { unfold Rleb in E. destruct (Rle_dec _ m); [discriminate | lra]. }
  rewrite Reqb_false by lra. eexists; eexists; reflexivity.
Qed.

Lemma gather_geometry_done (g : nx.DiGraph) (route : list string) :
  forall acc geom,
    gather_geometry g route acc = (geom, None) ->
    List.length geom = (List.length acc + List.length route)%nat /\
    forall n, In n route -> exists p, nx.node_xy g n = inl p.
Proof.
  induction route as [| n route IH]; intros acc geom H; simpl in H.
  - injection H as <-. split; [simpl; lia | intros n []].
  - destruct (nx.node_xy g n) as [p | e] eqn:Hn; [| discriminate].
    apply IH in H. destruct H as [Hlen Hall]. rewrite length_app in Hlen.
    simpl in *. split; [lia |].
    intros m [<- | Hm]; [exists p; exact Hn | apply Hall; exact Hm].
Qed.

(** X7.  With a non-negative [max_distance], [update_movement] raises
    nothing for a vehicle whose route cursor points into the route, and the
    cursor still does afterwards; [start_response] and [return_to_facility]
    leave the cursor inside the route when they return normally.  The one
    exception of [update_movement] is the [TypeError] of its first arrival
    check, raised for a moving vehicle whose cursor is already past the
    route, which leaves the vehicle as it was. *)
Theorem X7_update_movement_errors :
  forall (g : nx.DiGraph) (dt t : R) (v : Vehicle),
    0 <= current_speed v * dt ->
    (cursor_inside v ->
     snd (update_movement g dt t v) = None /\
     cursor_inside (fst (update_movement g dt t v))) /\
    (~ cursor_inside v ->
     exists msg, update_movement g dt t v = (v, Some (TypeError msg))) /\
    (forall dest route v',
       start_response dest route g v = (v', None) -> cursor_inside v') /\
    (forall route v',
       return_to_facility route g v = (v', None) -> cursor_inside v').
Proof.
  intros g dt t v Hsp. split; [| split; [| split]].
  - intros Hin. unfold update_movement.
    destruct (status_in (status v) [responding; returning]) eqn:Hst; simpl;
      [| split; [reflexivity | exact Hin]].
    destruct (route_nodes v) as [| n ns] eqn:Hrn; [split; [reflexivity | exact Hin] |].
    assert (Hlen : (route_index v < List.length (route_geometry v))%nat).
    { apply Hin; [exact Hst | rewrite Hrn; discriminate]. }
    replace (List.length (route_geometry v) <=? route_index v)%nat with false
      by (symmetry; apply Nat.leb_gt; exact Hlen).
    destruct (nth_error (route_geometry v) (route_index v)) as [target |] eqn:Hnth.
    2: { apply nth_error_None in Hnth. lia. }
    destruct (approach_ok (current_location v) target
                (current_speed v * 1000 / 3600 * dt)) as (q & reached & Ha); [nra |].
    rewrite Ha.
    match goal with
    | |- context [if ?b then _ else _] => destruct b eqn:Hb
    end.
    + split; [reflexivity |]. simpl. unfold arrive_at_destination.
      intros Hmov. exfalso.
      destruct reached; simpl in *; destruct (status v); simpl in *; discriminate.
    + split; [reflexivity |]. simpl. intros _ _.
      apply Nat.leb_gt in Hb. destruct reached; simpl in *; lia.
  - intros Hout. unfold update_movement.
    destruct (status_in (status v) [responding; returning]) eqn:Hst; simpl.
    2: { exfalso. apply Hout. intros H. rewrite Hst in H. discriminate. }
    destruct (route_nodes v) as [| n ns] eqn:Hrn.
    { exfalso. apply Hout. intros _ H. rewrite Hrn in H. contradiction. }
    destruct (List.length (route_geometry v) <=? route_index v)%nat eqn:Hlen.
    + eexists. reflexivity.
    + exfalso. apply Hout. intros _ _. apply Nat.leb_gt. exact Hlen.
  - intros dest route v'. unfold start_response, _update_route_geometry.
    cbv zeta. simpl route_nodes.
    destruct (gather_geometry g route []) as [geom e] eqn:Hg.
    intros H. injection H as <- ->. apply gather_geometry_done in Hg.
    destruct Hg as [Hlen _]. intros _ Hne. simpl in *.
    destruct route; [contradiction | simpl in Hlen; lia].
  - intros route v'. unfold return_to_facility, _update_route_geometry.
    cbv zeta. simpl route_nodes.
    destruct (gather_geometry g route []) as [geom e] eqn:Hg.
    intros H. injection H as <- ->. apply gather_geometry_done in Hg.
    destruct Hg as [Hlen _]. intros _ Hne. simpl in *.
    destruct route; [contradiction | simpl in Hlen; lia].
Qed.

Lemma truck_midway_cursor_inside : cursor_inside examples.truck_midway.
Proof. intros _ _. simpl. lia. Qed.

Lemma X7_witness :
  snd (update_movement examples.graph_N 1 0 examples.truck_midway) = None /\
  cursor_inside (fst (update_movement examples.graph_N 1 0 examples.truck_midway)).
Proof.
  apply (proj1 (X7_update_movement_errors examples.graph_N 1 0
                  examples.truck_midway ltac:(simpl; lra))).
  exact truck_midway_cursor_inside.
Defined.

(** ** update_patrol: the cyclic cursor *)

(** X8.  For a patrolling car with a non-empty patrol and a non-negative
    [max_distance]: when [patrol_index] points into the patrol,
    [update_patrol] raises nothing, the car keeps patrolling the same
    patrol and the cursor stays inside it; a target within reach is reached
    exactly and the cursor moves on cyclically.  When [patrol_index] is past
    the patrol, [update_patrol] raises [IndexError] and changes nothing. *)
Theorem X8_update_patrol_cursor :
  forall (g : nx.DiGraph) (dt : R) (v : Vehicle),
    status v = patrolling ->
    patrol_geometry v <> [] ->
    0 <= current_speed v * dt ->
    (forall target,
       nth_error (patrol_geometry v) (patrol_index v) = Some target ->
       exists v',
         update_patrol g dt v = (v', None) /\
         status v' = patrolling /\
         patrol_geometry v' = patrol_geometry v /\
         (patrol_index v' < List.length (patrol_geometry v'))%nat /\
         (hypot (fst target - fst (current_location v))
                (snd target - snd (current_location v))
            <= current_speed v * 1000 / 3600 * dt ->
          current_location v' = target /\
          patrol_index v'
            = ((patrol_index v + 1) mod List.length (patrol_geometry v))%nat)) /\
    ((List.length (patrol_geometry v) <= patrol_index v)%nat ->
     update_patrol g dt v = (v, Some IndexError)).
Proof.
  intros g dt v Hst Hgeom Hsp. unfold update_patrol. rewrite Hst. simpl.
  destruct (patrol_geometry v) as [| p0 ps] eqn:Hpg; [contradiction |].
  split.
  - intros target Hnth. rewrite Hnth.
    assert (Hlen : (patrol_index v < List.length (p0 :: ps))%nat).
    { apply nth_error_Some. rewrite Hnth. discriminate. }
    unfold approach.
    destruct (Rleb _ _) eqn:E.
    + eexists. split; [reflexivity |].
      cbn [status patrol_geometry patrol_index current_location
           set_patrol_index set_current_location].
      rewrite Hst, Hpg.
      split; [reflexivity |]. split; [reflexivity |].
      split; [apply Nat.mod_upper_bound; discriminate |].
      intros _. split; reflexivity.
    + assert (Hlt : current_speed v * 1000 / 3600 * dt
                    < hypot (fst target - fst (current_location v))
                            (snd target - snd (current_location v))).
      { unfold Rleb in E. destruct (Rle_dec _ _); [discriminate | lra]. }
      rewrite Reqb_false by nra.
      eexists. split; [reflexivity |]. simpl. rewrite Hst, Hpg.
      split; [reflexivity |]. split; [reflexivity |].
      split; [exact Hlen |]. intros Hle. lra.
  - intros Hout. apply nth_error_None in Hout. rewrite Hout. reflexivity.
Qed.

Lemma X8_witness :
  exists v',
    update_patrol examples.graph_N 1 examples.patrol_car = (v', None) /\
    status v' = patrolling /\
    patrol_geometry v' = patrol_geometry examples.patrol_car /\
    (patrol_index v' < List.length (patrol_geometry v'))%nat /\
    (hypot (0 - 3) (0 - 4) <= 40 * 1000 / 3600 * 1 ->
     current_location v' = (0, 0) /\
     patrol_index v' = ((0 + 1) mod 1)%nat).
Proof.
  apply (proj1 (X8_update_patrol_cursor examples.graph_N 1 examples.patrol_car
                  eq_refl ltac:(discriminate) ltac:(simpl; lra)) (0, 0)).
  reflexivity.
Defined.

(** X9.  [start_patrol] keeps the [patrol_index] of the previous patrol.
    When an idle police car is given a patrol over nodes of the graph that
    is not empty and has no more nodes than that index, the patrol starts
    normally and every following [update_patrol] raises [IndexError]. *)
Theorem X9_start_patrol_keeps_cursor :
  forall (g : nx.DiGraph) (patrol : list string) (v : Vehicle),
    status v = idle ->
    patrol <> [] ->
    (forall n, In n patrol -> exists p, nx.node_xy g n = inl p) ->
    exists v',
      start_patrol patrol g v = (v', None) /\
      status v' = patrolling /\
      patrol_index v' = patrol_index v /\
      List.length (patrol_geometry v') = List.length patrol /\
      ((List.length patrol <= patrol_index v)%nat ->
       forall dt, update_patrol g dt v' = (v', Some IndexError)).
Proof.
  intros g patrol v Hst Hne Hall. unfold start_patrol. rewrite Hst. simpl.
  unfold _update_patrol_geometry. simpl patrol_nodes.
  destruct (gather_geometry_ok g patrol Hall []) as (geom & Hg & Hlen).
  rewrite Hg. simpl. eexists. split; [reflexivity |].
  simpl. repeat split; [exact Hlen |].
  intros Hout dt. unfold update_patrol. simpl.
  destruct geom as [| p0 ps] eqn:Hgeom.
  { destruct patrol; [contradiction | discriminate]. }
  replace (nth_error (p0 :: ps) (patrol_index v)) with (@None Point);
    [reflexivity |].
  symmetry. apply nth_error_None. rewrite Hlen. exact Hout.
Qed.

Lemma X9_witness :
  exists v',
    start_patrol ["N"] examples.graph_N more_examples.police_back = (v', None) /\
    status v' = patrolling /\
    patrol_index v' = 3%nat /\
    List.length (patrol_geometry v') = 1%nat /\
    ((1 <= 3)%nat ->
     forall dt, update_patrol examples.graph_N dt v' = (v', Some IndexError)).
Proof.
  apply (X9_start_patrol_keeps_cursor examples.graph_N ["N"]
           more_examples.police_back eq_refl).
  - discriminate.
  - intros n [<- | []]. eexists. reflexivity.
Defined.

(** ** simulation_loop: what an iteration keeps and what it advances *)

Ltac split_cases :=
  repeat match goal with
  | |- context [if ?b then _ else _] => destruct b
  | |- context [match ?x with _ => _ end] => destruct x
  end.

Lemma update_movement_identity (g : nx.DiGraph) (dt t : R) (v : Vehicle) :
  identity (fst (update_movement g dt t v)) = identity v.
Proof.
  unfold update_movement, arrive_at_destination, arrive_at_facility.
  split_cases; reflexivity.
Qed.

Lemma update_patrol_identity (g : nx.DiGraph) (dt : R) (v : Vehicle) :
  identity (fst (update_patrol g dt v)) = identity v.
Proof. unfold update_patrol. split_cases; reflexivity. Qed.

Lemma start_patrol_identity (patrol : list string) (g : nx.DiGraph)
    (v : Vehicle) :
  identity (fst (start_patrol patrol g v)) = identity v.
Proof.
  unfold start_patrol, _update_patrol_geometry.
  destruct (status_eqb (status v) idle); [| reflexivity]. cbv zeta.
  destruct (gather_geometry g _ []) as [geom [e |]]; reflexivity.
Qed.

Lemma return_to_facility_identity (route : list string) (g : nx.DiGraph)
    (v : Vehicle) :
  identity (fst (return_to_facility route g v)) = identity v.
Proof.
  unfold return_to_facility, _update_route_geometry. cbv zeta.
  destruct (gather_geometry g _ []) as [geom e]; reflexivity.
Qed.

Section Ticks.

Variable shortest_path :
  nx.DiGraph -> option string -> option string -> list string + exn.

Lemma step_vehicle_identity (s : VehicleSimulator) (dt : R) (draws : list nat)
    (v : Vehicle) :
  identity (fst (fst (step_vehicle shortest_path s dt draws v))) = identity v.
Proof.
  unfold step_vehicle.
  destruct (status_in (status v) [responding; returning]).
  { pose proof (update_movement_identity (graph s) dt (simulated_time s) v) as H.
    destruct (update_movement _ _ _ _). exact H. }
  destruct (is_police (class v) && status_eqb (status v) patrolling).
  { pose proof (update_patrol_identity (graph s) dt v) as H.
    destruct (update_patrol _ _ _). exact H. }
  destruct (status_eqb (status v) handling).
  { destruct (handling_start_time v), (handling_duration v); try reflexivity.
    destruct (Rleb _ _); [| reflexivity].
    destruct (find_nearest_node s (current_location v)); [| reflexivity].
    destruct (find_nearest_node s (facility_location v)); [| reflexivity].
    destruct (shortest_path _ _ _) as [route |]; [| reflexivity].
    pose proof (return_to_facility_identity route (graph s) v) as H.
    destruct (return_to_facility _ _ _). exact H. }
  destruct (status_eqb (status v) idle && is_police (class v)); [| reflexivity].
  destruct (generate_patrol_route _ _ _) as [[patrol draws'] |]; [| reflexivity].
  pose proof (start_patrol_identity patrol (graph s) v) as H.
  destruct (start_patrol _ _ _). exact H.
Qed.

Lemma step_vehicles_identity (s : VehicleSimulator) (dt : R) (vs : list Vehicle) :
  forall draws,
    map identity (fst (fst (step_vehicles shortest_path s dt draws vs)))
    = map identity vs.
Proof.
  induction vs as [| v vs IH]; intros draws; simpl; [reflexivity |].
  pose proof (step_vehicle_identity s dt draws v) as H.
  destruct (step_vehicle shortest_path s dt draws v) as [[v' draws'] [e |]];
    simpl in H.
  - simpl. rewrite H. reflexivity.
  - specialize (IH draws').
    destruct (step_vehicles shortest_path s dt draws' vs) as [[rest draws''] e].
    simpl in *. rewrite H, IH. reflexivity.
Qed.

End Ticks.

(** X10.  An iteration of the simulation loop never adds, drops or
    reorders vehicles and never changes a vehicle's id, class or home
    facility, nor the graph or the speed settings.  When it returns
    normally simulated time has advanced by
    [real_time_step * simulation_speed]; when a vehicle update raises,
    simulated time is as it was. *)
Theorem X10_tick_keeps_fleet :
  forall (sp : nx.DiGraph -> option string -> option string -> list string + exn)
         (s : VehicleSimulator) (draws : list nat),
    map identity (vehicles (fst (fst (simulation_tick sp s draws))))
      = map identity (vehicles s) /\
    graph (fst (fst (simulation_tick sp s draws))) = graph s /\
    real_time_step (fst (fst (simulation_tick sp s draws))) = real_time_step s /\
    simulation_speed (fst (fst (simulation_tick sp s draws))) = simulation_speed s /\
    simulated_time (fst (fst (simulation_tick sp s draws)))
      = match snd (simulation_tick sp s draws) with
        | None => simulated_time s + real_time_step s * simulation_speed s
        | Some _ => simulated_time s
        end.
Proof.
  intros sp s draws. unfold simulation_tick. cbv zeta.
  pose proof (step_vehicles_identity sp s (real_time_step s * simulation_speed s)
                (vehicles s) draws) as H.
  destruct (step_vehicles _ _ _ _ _) as [[vs draws'] [e |]]; simpl in *;
    repeat split; exact H.
Qed.

(** ** simulation_loop: the end of handling *)

Lemma return_to_facility_ok (route : list string) (g : nx.DiGraph) (v : Vehicle) :
  (forall n, In n route -> exists p, nx.node_xy g n = inl p) ->
  exists v', return_to_facility route g v = (v', None) /\
    status v' = returning /\ route_nodes v' = route /\ route_index v' = 0%nat /\
    current_speed v' = max_speed v * 0.7 /\
    destination v' = Some (facility_location v) /\
    current_location v' = current_location v /\
    List.length (route_geometry v') = List.length route.
Proof.
  intros Hall. unfold return_to_facility, _update_route_geometry. cbv zeta.
  simpl route_nodes.
  destruct (gather_geometry_ok g route Hall []) as (geom & Hg & Hl).
  rewrite Hg. eexists. split; [reflexivity |]. simpl. repeat split. exact Hl.
Qed.

(** X11.  A handling vehicle is left alone by the loop while simulated
    time is below [handling_start_time + handling_duration].  From then on
    the loop asks for the shortest path from the node nearest to the
    vehicle to the node nearest to its facility: with a path over nodes of
    the graph the vehicle becomes returning on that path at 0.7 times its
    maximal speed, still where it was; when the search raises (no path),
    the exception leaves the loop and the vehicle stays handling. *)
Theorem X11_handling_then_return :
  forall (sp : nx.DiGraph -> option string -> option string -> list string + exn)
         (s : VehicleSimulator) (dt : R) (draws : list nat) (v : Vehicle)
         (start duration : R),
    status v = handling ->
    handling_start_time v = Some start ->
    handling_duration v = Some duration ->
    (simulated_time s < start + duration ->
     step_vehicle sp s dt draws v = ((v, draws), None)) /\
    (start + duration <= simulated_time s ->
     forall a b,
       find_nearest_node s (current_location v) = inl a ->
       find_nearest_node s (facility_location v) = inl b ->
       (forall route,
          sp (graph s) a b = inl route ->
          (forall n, In n route -> exists p, nx.node_xy (graph s) n = inl p) ->
          exists v',
            step_vehicle sp s dt draws v = ((v', draws), None) /\
            status v' = returning /\ route_nodes v' = route /\
            route_index v' = 0%nat /\
            current_speed v' = max_speed v * 0.7 /\
            destination v' = Some (facility_location v) /\
            current_location v' = current_location v /\
            List.length (route_geometry v') = List.length route) /\
       (forall e,
          sp (graph s) a b = inr e ->
          step_vehicle sp s dt draws v = ((v, draws), Some e))).
Proof.
  intros sp s dt draws v start duration Hst Hstart Hdur.
  unfold step_vehicle. rewrite Hst, Hstart, Hdur. simpl.
  rewrite andb_false_r. simpl. split.
  - intros Hlt. rewrite Rleb_false by exact Hlt. reflexivity.
  - intros Hle a b Ha Hb. rewrite Rleb_true by exact Hle. rewrite Ha, Hb. split.
    + intros route Hroute Hall. rewrite Hroute.
      destruct (return_to_facility_ok route (graph s) v Hall) as (v' & Hr & Hspec).
      rewrite Hr. exists v'. split; [reflexivity | exact Hspec].
    + intros e He. rewrite He. reflexivity.
Qed.

(** The truck that arrived at simulated time 0 is still handling at 100. *)
Lemma X11_witness :
  step_vehicle examples.stay_put
    (examples.town (0 + 1 * 100) examples.truck_handling) (1 * 100) []
    examples.truck_handling
  = ((examples.truck_handling, []), None).
Proof.
  apply (proj1 (X11_handling_then_return examples.stay_put
                  (examples.town (0 + 1 * 100) examples.truck_handling)
                  (1 * 100) [] examples.truck_handling 0 600
                  eq_refl eq_refl eq_refl)).
  simpl. lra.
Defined.

(** ** What a status entails, in every reachable state *)

Section Preserved.

Variable P : Vehicle -> Prop.
Hypothesis P_new : forall c vid fid fname floc, P (new_vehicle c vid fid fname floc).
Hypothesis P_start_patrol :
  forall patrol g v, P v -> is_police (class v) = true ->
    P (fst (start_patrol patrol g v)).
Hypothesis P_update_movement :
  forall g dt t v, P v -> P (fst (update_movement g dt t v)).
Hypothesis P_update_patrol :
  forall g dt v, P v -> P (fst (update_patrol g dt v)).
Hypothesis P_return_to_facility :
  forall route g v, P v -> status v = handling ->
    P (fst (return_to_facility route g v)).
Hypothesis P_start_response :
  forall dest route g v, P v -> P (fst (start_response dest route g v)).

Variable proj : R -> R -> Point.
Variable sp : nx.DiGraph -> option string -> option string -> list string + exn.

Lemma step_vehicle_preserves (s : VehicleSimulator) (dt : R) (draws : list nat)
    (v : Vehicle) :
  P v -> P (fst (fst (step_vehicle sp s dt draws v))).
Proof.
  intros Hv. unfold step_vehicle.
  destruct (status_in (status v) [responding; returning]).
  { pose proof (P_update_movement (graph s) dt (simulated_time s) v Hv) as H.
    destruct (update_movement _ _ _ _). exact H. }
  destruct (is_police (class v) && status_eqb (status v) patrolling).
  { pose proof (P_update_patrol (graph s) dt v Hv) as H.
    destruct (update_patrol _ _ _). exact H. }
  destruct (status_eqb (status v) handling) eqn:Hh.
  { apply status_eqb_eq in Hh.
    destruct (handling_start_time v), (handling_duration v); try exact Hv.
    destruct (Rleb _ _); [| exact Hv].
    destruct (find_nearest_node s (current_location v)); [| exact Hv].
    destruct (find_nearest_node s (facility_location v)); [| exact Hv].
    destruct (sp _ _ _) as [route |]; [| exact Hv].
    pose proof (P_return_to_facility route (graph s) v Hv Hh) as H.
    destruct (return_to_facility _ _ _). exact H. }
  destruct (status_eqb (status v) idle && is_police (class v)) eqn:Hip;
    [| exact Hv].
  apply andb_true_iff in Hip. destruct Hip as [_ Hp].
  destruct (generate_patrol_route _ _ _) as [[patrol draws'] |]; [| exact Hv].
  pose proof (P_start_patrol patrol (graph s) v Hv Hp) as H.
  destruct (start_patrol _ _ _). exact H.
Qed.

Lemma step_vehicles_preserve (s : VehicleSimulator) (dt : R) (vs : list Vehicle) :
  forall draws,
    Forall P vs -> Forall P (fst (fst (step_vehicles sp s dt draws vs))).
Proof.
  induction vs as [| v vs IH]; intros draws Hall; simpl; [constructor |].
  inversion Hall as [| ? ? Hv Hvs]. subst.
  pose proof (step_vehicle_preserves s dt draws v Hv) as H.
  destruct (step_vehicle sp s dt draws v) as [[v' draws'] [e |]]; simpl in H.
  - simpl. constructor; assumption.
  - specialize (IH draws' Hvs).
    destruct (step_vehicles sp s dt draws' vs) as [[rest draws''] e].
    simpl in *. constructor; assumption.
Qed.

Lemma assign_vehicles_preserve (f : Facility) (c : VehicleClass) (n : nat) :
  forall st,
    Forall P (vehicles (init_sim st)) ->
    Forall P (vehicles (init_sim (fst (assign_vehicles f c n st)))).
Proof.
  induction n as [| n IH]; intros st Hall; simpl; [exact Hall |].
  set (v := new_vehicle c _ _ _ _).
  assert (Hv : P v) by apply P_new.
  destruct (is_police c) eqn:Hp.
  - destruct (generate_patrol_route _ _ _) as [[patrol draws'] | e]; simpl.
    + pose proof (P_start_patrol patrol (graph (init_sim st)) v Hv Hp) as Hv'.
      destruct (start_patrol patrol (graph (init_sim st)) v) as [v' [e |]];
        simpl in Hv'.
      * simpl. apply Forall_app.
        split; [exact Hall | constructor; [exact Hv' | constructor]].
      * apply IH. simpl. apply Forall_app.
        split; [exact Hall | constructor; [exact Hv' | constructor]].
    + apply Forall_app. split; [exact Hall | constructor; [exact Hv | constructor]].
  - apply IH. simpl. apply Forall_app.
    split; [exact Hall | constructor; [exact Hv | constructor]].
Qed.

Lemma initialize_loop_preserves (fs : list Facility) :
  forall st,
    Forall P (vehicles (init_sim st)) ->
    Forall P (vehicles (init_sim (fst (initialize_loop fs st)))).
Proof.
  induction fs as [| f fs IH]; intros st Hall; simpl; [exact Hall |].
  destruct (facility_class (facility_type f)) as [[c n] |]; [| apply IH; exact Hall].
  pose proof (assign_vehicles_preserve f c n st Hall) as H.
  destruct (assign_vehicles f c n st) as [st' [e |]]; simpl in H.
  - exact H.
  - apply IH. exact H.
Qed.

Lemma controller_dispatch_preserves (now vid : string) (dest : Point)
    (route : list string) (c : VehicleController) :
  Forall P (vehicles (simulator c)) ->
  Forall P (vehicles (simulator
     (fst (vehicle_controller.dispatch_vehicle now vid dest route c)))).
Proof.
  intros Hall. unfold vehicle_controller.dispatch_vehicle. cbv zeta.
  destruct (get_vehicle_by_id _ _) as [v |] eqn:Hget; [| exact Hall].
  destruct (status_in _ _); [exact Hall |].
  assert (Hv : P v).
  { rewrite Forall_forall in Hall. apply Hall.
    eapply get_vehicle_by_id_In. exact Hget. }
  pose proof (P_start_response dest route (graph (simulator c)) v Hv) as Hv'.
  destruct (start_response _ _ _ _) as [v' [e |]]; simpl in *;
    apply store_vehicle_Forall; assumption.
Qed.

Lemma reachable_preserves (road_network : nx.DiGraph)
    (facilities_data : list Facility) (c : VehicleController) :
  reachable proj sp road_network facilities_data c ->
  Forall P (vehicles (simulator c)).
Proof.
  induction 1 as [draws draws' sim history Hinit
                 | c draws draws' sim' e _ IH Htick
                 | c c' now request r _ IH Hd
                 | c now _ IH].
  - unfold initialize_vehicles in Hinit.
    pose proof (initialize_loop_preserves facilities_data
                  (mk_init (new_simulator road_network facilities_data) 1 draws)
                  (Forall_nil P)) as H.
    simpl facilities in Hinit.
    destruct (initialize_loop _ _) as [st e]. injection Hinit as <- _ _.
    exact H.
  - unfold simulation_tick in Htick. cbv zeta in Htick.
    pose proof (step_vehicles_preserve (simulator c)
                  (real_time_step (simulator c) * simulation_speed (simulator c))
                  (vehicles (simulator c)) draws IH) as H.
    destruct (step_vehicles _ _ _ _ _) as [[vs d] [e' |]];
      injection Htick as <- _ _; exact H.
  - unfold api.dispatch_vehicle in Hd. cbv zeta in Hd.
    destruct (proj _ _) as [x y].
    destruct (get_available_vehicles _ _ _) as [| first others];
      [injection Hd as <- _; exact IH |].
    destruct (find_nearest_node _ _); [| injection Hd as <- _; exact IH].
    destruct (find_nearest_node _ _); [| injection Hd as <- _; exact IH].
    destruct (sp _ _ _) as [route | e];
      [| destruct e; injection Hd as <- _; exact IH].
    pose proof (controller_dispatch_preserves now
                  (vehicle_id (min_from (distance_to x y) first others))
                  (x, y) route c IH) as H.
    destruct (vehicle_controller.dispatch_vehicle _ _ _ _ _) as [c1 [e |]];
      simpl in H; [injection Hd as <- _; exact H |].
    destruct (route_travel_time _ _ _); injection Hd as <- _; exact H.
  - exact IH.
Qed.

End Preserved.

Lemma new_vehicle_consistent (c : VehicleClass) (vid : string) (fid : Z)
    (fname : string) (floc : Point) :
  status_consistent (new_vehicle c vid fid fname floc).
Proof. unfold status_consistent. simpl. repeat split. Qed.

Lemma start_patrol_consistent (patrol : list string) (g : nx.DiGraph)
    (v : Vehicle) :
  status_consistent v -> is_police (class v) = true ->
  status_consistent (fst (start_patrol patrol g v)).
Proof.
  intros Hv Hp. unfold start_patrol.
  destruct (status_eqb (status v) idle); [| exact Hv].
  unfold _update_patrol_geometry. cbv zeta.
  destruct Hv as [Hmax _]. apply is_police_class in Hp.
  destruct (gather_geometry g _ []) as [geom [e |]]; simpl;
    (split; simpl; [exact Hmax | exact Hp]).
Qed.

Lemma update_patrol_consistent (g : nx.DiGraph) (dt : R) (v : Vehicle) :
  status_consistent v -> status_consistent (fst (update_patrol g dt v)).
Proof.
  intros Hv. unfold update_patrol.
  destruct (status_eqb (status v) patrolling) eqn:Hst; simpl; [| exact Hv].
  apply status_eqb_eq in Hst.
  destruct (patrol_geometry v); [exact Hv |].
  destruct (nth_error _ _); [| exact Hv].
  destruct (approach _ _ _) as [[q reached] | e]; [| exact Hv].
  destruct Hv as [Hmax Hv]. rewrite Hst in Hv.
  destruct reached; (split; simpl; [exact Hmax | rewrite Hst; exact Hv]).
Qed.

Lemma update_movement_consistent (g : nx.DiGraph) (dt t : R) (v : Vehicle) :
  status_consistent v -> status_consistent (fst (update_movement g dt t v)).
Proof.
  intros Hv. unfold update_movement.
  destruct (status_in (status v) [responding; returning]) eqn:Hst; simpl;
    [| exact Hv].
  destruct (route_nodes v); [exact Hv |].
  destruct (List.length (route_geometry v) <=? route_index v)%nat; [exact Hv |].
  destruct (nth_error (route_geometry v) (route_index v)); [| exact Hv].
  destruct (approach _ _ _) as [[q reached] | e]; [| exact Hv].
  destruct Hv as [Hmax Hv].
  match goal with
  | |- context [if ?b then _ else _] => destruct b
  end; unfold arrive_at_destination, arrive_at_facility;
    destruct reached; simpl;
    destruct (status v) eqn:Es; simpl in *; try discriminate;
    (split; simpl; [exact Hmax |]); try rewrite Es; simpl;
    try exact Hv; repeat split; eauto.
Qed.

Lemma return_to_facility_consistent (route : list string) (g : nx.DiGraph)
    (v : Vehicle) :
  status_consistent v -> status v = handling ->
  status_consistent (fst (return_to_facility route g v)).
Proof.
  intros [Hmax _] _. unfold return_to_facility, _update_route_geometry. cbv zeta.
  destruct (gather_geometry g _ []) as [geom e]. simpl.
  split; simpl; [exact Hmax | split; reflexivity].
Qed.

Lemma start_response_consistent (dest : Point) (route : list string)
    (g : nx.DiGraph) (v : Vehicle) :
  status_consistent v ->
  status_consistent (fst (start_response dest route g v)).
Proof.
  intros [Hmax _]. unfold start_response, _update_route_geometry. cbv zeta.
  destruct (gather_geometry g _ []) as [geom e]. simpl.
  split; simpl; [exact Hmax | reflexivity].
Qed.

(** X12.  In every state reachable from fleet initialization by loop
    iterations, dispatch requests and status captures, each vehicle has the
    maximal speed of its class (80, 90 or 120 km/h) and its attributes fit
    its status: an idle vehicle is at rest at its facility with no route
    and no destination; a handling vehicle is at rest with no route and has
    its handling start and the duration of 600 s recorded; a responding
    vehicle drives at its maximal speed; a returning vehicle drives at 0.7
    times that speed towards its facility; only police cars patrol. *)
Theorem X12_status_consistent :
  forall (proj : R -> R -> Point)
         (sp : nx.DiGraph -> option string -> option string -> list string + exn)
         (road_network : nx.DiGraph) (facilities_data : list Facility)
         (c : VehicleController) (v : Vehicle),
    reachable proj sp road_network facilities_data c ->
    In v (vehicles (simulator c)) ->
    status_consistent v.
Proof.
  intros proj sp road_network facilities_data c v Hreach Hin.
  pose proof (reachable_preserves status_consistent
                new_vehicle_consistent start_patrol_consistent
                update_movement_consistent update_patrol_consistent
                return_to_facility_consistent start_response_consistent
                proj sp road_network facilities_data c Hreach) as Hall.
  rewrite Forall_forall in Hall. exact (Hall v Hin).
Qed.

Lemma X12_witness : status_consistent examples.truck_handling.
Proof.
  apply (X12_status_consistent examples.plane examples.stay_put
           examples.graph_N examples.fire_station
           (mk_controller (examples.town (0 + 1 * 100) examples.truck_handling)
              [mk_entry "00:01Z" [get_state examples.truck_responding]])
           examples.truck_handling town_reaches_handling).
  left. reflexivity.
Defined.

(** ** VehicleController.dispatch_vehicle: its effect on fleet and history *)

Lemma get_store_other (vs : list Vehicle) (vid other : string) (v' : Vehicle) :
  vehicle_id v' = vid -> other <> vid ->
  get_vehicle_by_id (store_vehicle vid v' vs) other = get_vehicle_by_id vs other.
Proof.
  intros Hid Hne. induction vs as [| a vs IH]; simpl; [reflexivity |].
  destruct (String.eqb (vehicle_id a) vid) eqn:E; simpl.
  - apply String.eqb_eq in E. rewrite Hid.
    replace (String.eqb vid other) with false
      by (symmetry; apply String.eqb_neq; congruence).
    replace (String.eqb (vehicle_id a) other) with false
      by (symmetry; apply String.eqb_neq; congruence).
    reflexivity.
  - rewrite IH. reflexivity.
Qed.

Lemma store_vehicle_length (vid : string) (v' : Vehicle) (vs : list Vehicle) :
  List.length (store_vehicle vid v' vs) = List.length vs.
Proof.
  induction vs as [| a vs IH]; simpl; [reflexivity |].
  destruct (String.eqb (vehicle_id a) vid); simpl; [reflexivity | rewrite IH; reflexivity].
Qed.

Lemma capture_last (now : string) (c : VehicleController) :
  exists older,
    status_history (_capture_status now c)
    = (older ++ [mk_entry now (map get_state (vehicles (simulator c)))])%list.
Proof.
  unfold _capture_status. cbv zeta. cbn [status_history].
  set (entry := mk_entry now _).
  destruct (1440 <? List.length (status_history c ++ [entry]))%nat eqn:E.
  - apply Nat.ltb_lt in E. rewrite length_app in E. simpl in E.
    unfold last_n. rewrite length_app. simpl.
    exists (skipn (List.length (status_history c) + 1 - 1440) (status_history c)).
    rewrite skipn_app.
    replace (List.length (status_history c) + 1 - 1440
             - List.length (status_history c))%nat with 0%nat by lia.
    reflexivity.
  - exists (status_history c). reflexivity.
Qed.

(** What a dispatch that returned normally did. *)
Lemma controller_dispatch_inv (now vid : string) (dest : Point)
    (route : list string) (c c' : VehicleController) :
  vehicle_controller.dispatch_vehicle now vid dest route c = (c', None) ->
  exists v v',
    get_vehicle_by_id (vehicles (simulator c)) vid = Some v /\
    start_response dest route (graph (simulator c)) v = (v', None) /\
    c' = _capture_status now
           (mk_controller
              (set_vehicles (store_vehicle vid v' (vehicles (simulator c)))
                 (simulator c))
              (status_history c)).
Proof.
  unfold vehicle_controller.dispatch_vehicle. cbv zeta.
  destruct (get_vehicle_by_id (vehicles (simulator c)) vid) as [v |] eqn:Hget;
    [| discriminate].
  destruct (status_in (status v) [responding; handling]); [discriminate |].
  destruct (start_response dest route (graph (simulator c)) v) as [v' [e |]]
    eqn:Hsr; [discriminate |].
  intros H. injection H as <-. exists v, v'.
  split; [reflexivity | split; [exact Hsr | reflexivity]].
Qed.

(** X13.  After a dispatch that returned normally: the fleet has the same
    size and every vehicle with another id is what it was; the last entry
    of the history is a snapshot of the new fleet, taken at that moment;
    and any further dispatch of the same id fails with the "is not
    available" error and changes nothing. *)
Theorem X13_dispatch_effect :
  forall (now vid : string) (dest : Point) (route : list string)
         (c c' : VehicleController),
    vehicle_controller.dispatch_vehicle now vid dest route c = (c', None) ->
    List.length (vehicles (simulator c')) = List.length (vehicles (simulator c)) /\
    (forall other, other <> vid ->
       get_vehicle_by_id (vehicles (simulator c')) other
         = get_vehicle_by_id (vehicles (simulator c)) other) /\
    (exists older,
       status_history c'
         = (older ++ [mk_entry now (map get_state (vehicles (simulator c')))])%list) /\
    (forall now' dest' route',
       vehicle_controller.dispatch_vehicle now' vid dest' route' c'
         = (c', Some (ValueError ("Vehicle " ++ vid ++ " is not available")))).
Proof.
  intros now vid dest route c c' Hd.
  destruct (controller_dispatch_done now vid dest route c c' Hd) as (w & Hw & Hws).
  destruct (controller_dispatch_inv now vid dest route c c' Hd)
    as (v & v' & Hget & Hsr & ->).
  assert (Hid : vehicle_id v' = vid).
  { pose proof (start_response_any dest route (graph (simulator c)) v) as [_ H].
    rewrite Hsr in H. simpl in H. rewrite H.
    eapply get_vehicle_by_id_id. exact Hget. }
  split; [| split; [| split]].
  - unfold _capture_status. simpl. apply store_vehicle_length.
  - intros other Hne. unfold _capture_status. simpl.
    apply get_store_other; assumption.
  - match goal with
    | |- context [status_history (_capture_status now ?c0)] =>
        destruct (capture_last now c0) as [older Ho]
    end.
    exists older. exact Ho.
  - intros now' dest' route'.
    unfold vehicle_controller.dispatch_vehicle at 1. cbv zeta.
    rewrite Hw, Hws. reflexivity.
Qed.

Lemma X13_witness :
  exists c',
    vehicle_controller.dispatch_vehicle "00:01Z" "FT-1" (0, 0) ["N"]
      (examples.controller_of examples.truck_idle []) = (c', None) /\
    forall now' dest' route',
      vehicle_controller.dispatch_vehicle now' "FT-1" dest' route' c'
        = (c', Some (ValueError "Vehicle FT-1 is not available")).
Proof.
  eexists. split; [reflexivity |].
  apply (X13_dispatch_effect "00:01Z" "FT-1" (0, 0) ["N"]
           (examples.controller_of examples.truck_idle []) _ eq_refl).
Defined.

(** ** get_available_vehicles with both filters *)


(** ** get_vehicle_route after a dispatch *)

Lemma start_response_done (dest : Point) (route : list string)
    (g : nx.DiGraph) (v v' : Vehicle) :
  start_response dest route g v = (v', None) ->
  status v' = responding /\ route_nodes v' = route /\
  vehicle_id v' = vehicle_id v /\
  forall n, In n route -> exists p, nx.node_xy g n = inl p.
Proof.
  unfold start_response, _update_route_geometry. cbv zeta. simpl route_nodes.
  destruct (gather_geometry g route []) as [geom e] eqn:Hg.
  intros H. injection H as <- ->. apply gather_geometry_done in Hg.
  simpl. repeat split. apply Hg.
Qed.

Lemma route_points_all (to_wgs84 : R -> R -> Point) (g : nx.DiGraph)
    (route : list string) :
  (forall n, In n route -> exists p, nx.node_xy g n = inl p) ->
  forall acc, exists points,
    api_queries.route_points_loop to_wgs84 g route acc = inl points /\
    List.length points = (List.length acc + List.length route)%nat.
Proof.
  induction route as [| n route IH]; intros Hall acc; simpl.
  - exists acc. split; [reflexivity | lia].
  - destruct (Hall n (or_introl eq_refl)) as [[x y] Hn].
    assert (Hhas : nx.has_node g n = true).
    { unfold nx.has_node. unfold nx.node_xy in Hn.
      destruct (nx.get String.eqb n (nx.nodes g)) as [[d |] |];
        [reflexivity | discriminate | discriminate]. }
    rewrite Hhas, Hn.
    destruct (IH (fun m Hm => Hall m (or_intror Hm)) (acc ++ [to_wgs84 x y])%list)
      as (points & Hp & Hl).
    exists points. split; [exact Hp |]. rewrite Hl, length_app. simpl. lia.
Qed.

Lemma lenient_travel_time_agrees (g : nx.DiGraph) (route : list string) :
  forall acc total,
    route_travel_time g route acc = inl total ->
    api_queries.lenient_travel_time g route acc = total.
Proof.
  induction route as [| u route IH]; intros acc total H.
  - simpl in *. injection H as <-. reflexivity.
  - destruct route as [| w rest].
    + simpl in *. injection H as <-. reflexivity.
    + change (route_travel_time g (u :: w :: rest) acc)
        with (match nx.get_edge g u w with
              | Some d => route_travel_time g (w :: rest) (acc + nx.edge_travel_time d)
              | None => inr (KeyError w)
              end) in H.
      change (api_queries.lenient_travel_time g (u :: w :: rest) acc)
        with (api_queries.lenient_travel_time g (w :: rest)
                (acc + match nx.get_edge g u w with
                       | Some d => nx.edge_travel_time d
                       | None => 0
                       end)).
      destruct (nx.get_edge g u w) as [d |]; [| discriminate].
      apply IH. exact H.
Qed.

(** What the handler did when it answered with a response. *)
Lemma api_dispatch_inv (proj : R -> R -> Point)
    (sp : nx.DiGraph -> option string -> option string -> list string + exn)
    (now : string) (request : DispatchRequest) (c c' : VehicleController)
    (resp : DispatchResponse) :
  api.dispatch_vehicle proj sp now request c = (c', inl resp) ->
  exists route,
    vehicle_controller.dispatch_vehicle now (response_vehicle_id resp)
      (proj (destination_lon request) (destination_lat request)) route c
      = (c', None) /\
    route_travel_time (graph (simulator c)) route 0 = inl (estimated_time resp) /\
    route_length resp = List.length route.
Proof.
  unfold api.dispatch_vehicle. cbv zeta.
  destruct (proj _ _) as [x y].
  destruct (get_available_vehicles _ _ _) as [| first others]; [discriminate |].
  destruct (find_nearest_node _ _); [| discriminate].
  destruct (find_nearest_node _ _); [| discriminate].
  destruct (sp _ _ _) as [route | e]; [| destruct e; discriminate].
  destruct (vehicle_controller.dispatch_vehicle _ _ _ _ _) as [c1 [e |]] eqn:Hd;
    [discriminate |].
  destruct (route_travel_time _ _ _) as [total |] eqn:Ht; [| discriminate].
  intros H. injection H as <- <-. simpl.
  exists route. repeat split; assumption.
Qed.

(** X15.  After the dispatch handler has answered with a response for a
    route of at least two nodes, [get_vehicle_route] for the vehicle named
    in the response returns one feature: its status is responding, its
    line has one coordinate per route node, and its estimated time is the
    estimated time of the response. *)
Theorem X15_route_of_dispatched_vehicle :
  forall (proj to_wgs84 : R -> R -> Point)
         (sp : nx.DiGraph -> option string -> option string -> list string + exn)
         (now : string) (request : DispatchRequest) (c c' : VehicleController)
         (resp : DispatchResponse),
    api.dispatch_vehicle proj sp now request c = (c', inl resp) ->
    (2 <= route_length resp)%nat ->
    exists line,
      api_queries.get_vehicle_route to_wgs84 (response_vehicle_id resp)
        (simulator c')
        = inl [api_queries.mk_feature line (response_vehicle_id resp) responding
                 (estimated_time resp)] /\
      List.length line = route_length resp.
Proof.
  intros proj to_wgs84 sp now request c c' resp Hd Hlen.
  destruct (api_dispatch_inv proj sp now request c c' resp Hd)
    as (route & Hcd & Htime & Hrl).
  destruct (controller_dispatch_inv _ _ _ _ _ _ Hcd) as (v & v' & Hget & Hsr & ->).
  destruct (start_response_done _ _ _ _ _ Hsr) as (Hst & Hrn & Hid & Hall).
  assert (Hget' : get_vehicle_by_id
                    (store_vehicle (response_vehicle_id resp) v'
                       (vehicles (simulator c)))
                    (response_vehicle_id resp) = Some v').
  { apply get_store_vehicle with (v := v); [exact Hget |].
    rewrite Hid. eapply get_vehicle_by_id_id. exact Hget. }
  destruct (route_points_all to_wgs84 (graph (simulator c)) route Hall [])
    as (line & Hline & Hll).
  exists line. simpl in Hll. split; [| lia].
  unfold api_queries.get_vehicle_route. unfold _capture_status. simpl.
  rewrite Hget', Hrn, Hline, Hst.
  destruct route as [| n route]; [simpl in *; lia |].
  replace (List.length line <? 2)%nat with false
    by (symmetry; apply Nat.ltb_ge; lia).
  rewrite (lenient_travel_time_agrees _ _ _ _ Htime). reflexivity.
Qed.

(** ** reset_simulation *)

Lemma set_vehicles_settings (vs : list Vehicle) (s : VehicleSimulator) :
  graph (set_vehicles vs s) = graph s /\
  facilities (set_vehicles vs s) = facilities s /\
  simulated_time (set_vehicles vs s) = simulated_time s.
Proof. repeat split. Qed.

Lemma assign_vehicles_settings (f : Facility) (c : VehicleClass) (n : nat) :
  forall st,
    graph (init_sim (fst (assign_vehicles f c n st))) = graph (init_sim st) /\
    facilities (init_sim (fst (assign_vehicles f c n st)))
      = facilities (init_sim st) /\
    simulated_time (init_sim (fst (assign_vehicles f c n st)))
      = simulated_time (init_sim st).
Proof.
  induction n as [| n IH]; intros st; simpl; [repeat split |].
  destruct (is_police c).
  - destruct (generate_patrol_route _ _ _) as [[patrol draws'] | e];
      [| repeat split].
    destruct (start_patrol _ _ _) as [v' [e |]]; [repeat split |].
    destruct (IH (mk_init (set_vehicles (vehicles (init_sim st) ++ [v'])
                             (init_sim st)) (S (init_next_id st)) draws'))
      as (H1 & H2 & H3).
    repeat split; assumption.
  - match goal with
    | |- context [assign_vehicles f c n ?st1] =>
        destruct (IH st1) as (H1 & H2 & H3)
    end.
    repeat split; assumption.
Qed.

Lemma initialize_loop_settings (fs : list Facility) :
  forall st,
    graph (init_sim (fst (initialize_loop fs st))) = graph (init_sim st) /\
    facilities (init_sim (fst (initialize_loop fs st))) = facilities (init_sim st) /\
    simulated_time (init_sim (fst (initialize_loop fs st)))
      = simulated_time (init_sim st).
Proof.
  induction fs as [| f fs IH]; intros st; simpl; [repeat split |].
  destruct (facility_class (facility_type f)) as [[c n] |]; [| apply IH].
  pose proof (assign_vehicles_settings f c n st) as (H1 & H2 & H3).
  destruct (assign_vehicles f c n st) as [st' [e |]]; simpl in *.
  - repeat split; assumption.
  - destruct (IH st') as (K1 & K2 & K3). repeat split; congruence.
Qed.

(** X16.  [reset_simulation] rebuilds the fleet from the facilities: the
    new vehicles carry distinct ids and stand at their facilities without
    route or destination, idle or patrolling, whatever the fleet was
    doing.  Graph and facilities are kept, and so is simulated time, which
    a reset does not set back.  When the reset succeeds the fleet is
    complete: the quota of every facility, police cars patrolling and all
    other vehicles idle. *)
Theorem X16_reset_simulation :
  forall (s : VehicleSimulator) (draws : list nat),
    NoDup (map vehicle_id
             (vehicles (fst (fst (api_queries.reset_simulation s draws))))) /\
    Forall at_home (vehicles (fst (fst (api_queries.reset_simulation s draws)))) /\
    graph (fst (fst (api_queries.reset_simulation s draws))) = graph s /\
    facilities (fst (fst (api_queries.reset_simulation s draws))) = facilities s /\
    simulated_time (fst (fst (api_queries.reset_simulation s draws)))
      = simulated_time s /\
    (forall msg,
       snd (api_queries.reset_simulation s draws) = inl msg ->
       List.length (vehicles (fst (fst (api_queries.reset_simulation s draws))))
         = list_sum (map quota (facilities s)) /\
       Forall started
         (vehicles (fst (fst (api_queries.reset_simulation s draws))))).
Proof.
  intros s draws. unfold api_queries.reset_simulation, initialize_vehicles.
  set (st0 := mk_init (set_vehicles [] s) 1 draws).
  change (facilities (set_vehicles [] s)) with (facilities s).
  destruct (initialize_loop_inv (facilities s) st0) as [Hids Hhome].
  { split; simpl; [constructor | intros v []]. }
  { simpl. constructor. }
  pose proof (initialize_loop_settings (facilities s) st0) as (Hg & Hf & Ht).
  pose proof (initialize_loop_count (facilities s) st0) as Hcount.
  destruct (initialize_loop (facilities s) st0) as [st [e |]]; simpl in *.
  - split; [apply Hids |]. split; [exact Hhome |].
    split; [exact Hg |]. split; [exact Hf |]. split; [exact Ht |].
    intros msg H. discriminate.
  - split; [apply Hids |]. split; [exact Hhome |].
    split; [exact Hg |]. split; [exact Hf |]. split; [exact Ht |].
    intros msg _. destruct (Hcount st eq_refl) as [Hlen Hst].
    split; [exact Hlen | apply Hst; constructor].
Qed.

Lemma X15_witness :
  exists line,
    api_queries.get_vehicle_route examples.plane "FT-1"
      (simulator
         (fst (api.dispatch_vehicle examples.plane more_examples.always_AB
                 "00:01Z" (mk_request "fire_truck" 100 0) more_examples.town_AB)))
      = inl [api_queries.mk_feature line "FT-1" responding
               (0 + nx.edge_travel_time examples.edge_AB)] /\
    List.length line = 2%nat.
Proof.
  apply (X15_route_of_dispatched_vehicle examples.plane examples.plane
           more_examples.always_AB "00:01Z" (mk_request "fire_truck" 100 0)
           more_examples.town_AB
           (fst (api.dispatch_vehicle examples.plane more_examples.always_AB
                   "00:01Z" (mk_request "fire_truck" 100 0) more_examples.town_AB))
           (mk_response "Closest fire_truck (FT-1) dispatched" "FT-1" 2
              (0 + nx.edge_travel_time examples.edge_AB))).
  - reflexivity.
  - simpl. lia.
Defined.

(** ** create_road_network_graph: edges and nodes of the built graph *)

Lemma speed_kph_pos (road : Road) : 0 < speed_kph road.
Proof. apply speed_kph_cases. Qed.

Lemma add_edge_sound (g : nx.DiGraph) (u v : string) (d : nx.edge_data) :
  Forall edge_sound (nx.edges g) -> edge_sound ((u, v), d) ->
  Forall edge_sound (nx.edges (nx.add_edge g u v d)).
Proof.
  intros Hall Hd. rewrite Forall_forall in *. intros e Hin.
  unfold nx.add_edge in Hin. simpl in Hin. apply In_assign in Hin.
  destruct Hin as [-> | Hin]; [exact Hd | apply Hall; exact Hin].
Qed.

Lemma add_segment_sound (road : Road) (coords : list Point) (n i : nat)
    (start_node end_node : string * Point) (g : nx.DiGraph) :
  Forall edge_sound (nx.edges g) ->
  Forall edge_sound
    (nx.edges (add_segment road coords n i start_node end_node g)).
Proof.
  intros Hall. unfold add_segment.
  destruct start_node as [s sc], end_node as [e ec].
  destruct (String.eqb s e) eqn:Hse; [exact Hall |].
  apply String.eqb_neq in Hse. cbv zeta.
  set (d := nx.mk_edge _ _ _ _ _).
  assert (Hd : 0 < nx.edge_speed d /\ 0 <= nx.edge_length d /\
               0 <= nx.edge_travel_time d).
  { unfold d. simpl. pose proof (speed_kph_pos road) as Hs.
    pose proof (hypot_nonneg (fst ec - fst sc) (snd ec - snd sc)) as Hl.
    split; [exact Hs |]. split; [exact Hl |].
    unfold Rdiv. apply Rmult_le_pos.
    - apply Rmult_le_pos; [exact Hl | lra].
    - apply Rlt_le, Rinv_0_lt_compat. lra. }
  assert (H1 : Forall edge_sound (nx.edges (nx.add_edge g s e d))).
  { apply add_edge_sound; [exact Hall |]. split; [exact Hse | exact Hd]. }
  destruct (String.eqb (traffic_direction road) "Both directions"); [| exact H1].
  rewrite get_edge_add_edge_same.
  apply add_edge_sound; [exact H1 |].
  split; [simpl; congruence | exact Hd].
Qed.

Lemma add_segments_sound (road : Road) (coords : list Point) (n : nat)
    (road_nodes : list (string * Point)) :
  forall i g,
    Forall edge_sound (nx.edges g) ->
    Forall edge_sound (nx.edges (add_segments road coords n i road_nodes g)).
Proof.
  induction road_nodes as [| p rest IH]; intros i g Hall; [exact Hall |].
  destruct rest as [| q rest']; [exact Hall |].
  change (add_segments road coords n i (p :: q :: rest') g)
    with (add_segments road coords n (S i) (q :: rest')
            (add_segment road coords n i p q g)).
  apply IH. apply add_segment_sound. exact Hall.
Qed.

Lemma process_road_sound (round2 : R -> R) (junctions : list Junction)
    (st : BuildState) (road : Road) :
  Forall edge_sound (nx.edges (G st)) ->
  Forall edge_sound (nx.edges (G (process_road round2 junctions st road))).
Proof.
  intros Hall. unfold process_road.
  destruct (geometry road) as [coords |]; [| exact Hall].
  destruct (List.length coords <? 2)%nat; [exact Hall |].
  destruct (collect_road_nodes round2 junctions (List.length coords) 0 coords st [])
    as [st' road_nodes] eqn:Hc.
  apply collect_road_nodes_edges in Hc.
  destruct (List.length road_nodes <? 2)%nat; [rewrite Hc; exact Hall |].
  simpl. apply add_segments_sound. rewrite Hc. exact Hall.
Qed.

(** X17.  Every edge of a built graph joins two different nodes (no
    self-loop), has a positive speed and a non-negative length and travel
    time. *)
Theorem X17_built_edges_sound :
  forall (round2 : R -> R) (is_strongly_connected : nx.DiGraph -> bool)
         (largest_cc_len : nx.DiGraph -> nat)
         (roads : list Road) (junctions : list Junction)
         (g : nx.DiGraph) (printed : list Line),
    create_road_network_graph round2 is_strongly_connected largest_cc_len
      roads junctions = Built g printed ->
    Forall edge_sound (nx.edges g).
Proof.
  intros round2 isc lcc roads junctions g printed Hb.
  apply built_graph in Hb. subst g. unfold build_state, process_roads.
  assert (H0 : Forall edge_sound
                 (nx.edges (G (add_junctions round2 junctions
                                 (mk_build nx.empty [] 0))))).
  { destruct (add_junctions_ids round2 junctions (mk_build nx.empty [] 0))
      as (_ & _ & _ & He); [intros k id [] |].
    rewrite He. constructor. }
  revert H0. generalize (add_junctions round2 junctions (mk_build nx.empty [] 0)).
  induction roads as [| road roads IH]; intros st Hst; simpl; [exact Hst |].
  apply IH. apply process_road_sound. exact Hst.
Qed.

Lemma X17_witness : Forall edge_sound (nx.edges examples.graph_AB).
Proof.
  apply (X17_built_edges_sound examples.exact examples.connected
           examples.no_component [examples.road_AB] examples.junctions_AB
           examples.graph_AB
           [Adding_junctions; Creating_spatial_index; Processing_roads;
            Created_graph 2 2]).
  exact build_AB.
Defined.

Lemma nodes_complete_add_node (g : nx.DiGraph) (n : string) (d : nx.node_data) :
  nodes_complete g -> nodes_complete (nx.add_node g n d).
Proof.
  intros Hc m dm Hin. unfold nx.add_node in Hin. simpl in Hin.
  apply In_assign in Hin. destruct Hin as [Heq | Hin].
  - injection Heq as _ ->. discriminate.
  - eapply Hc. exact Hin.
Qed.

Lemma touch_known (n : string) (ns : list (string * option nx.node_data))
    (d : nx.node_data) :
  nx.get String.eqb n ns = Some (Some d) -> nx.touch_node n ns = ns.
Proof. intros H. unfold nx.touch_node. rewrite H. reflexivity. Qed.

Lemma add_edge_nodes (g : nx.DiGraph) (u v : string) (d : nx.edge_data) :
  has_xy g u -> has_xy g v -> nx.nodes (nx.add_edge g u v d) = nx.nodes g.
Proof.
  intros [du Hu] [dv Hv]. unfold nx.add_edge. simpl.
  rewrite (touch_known u _ du Hu). apply (touch_known v _ dv Hv).
Qed.

Lemma add_segment_nodes (road : Road) (coords : list Point) (n i : nat)
    (start_node end_node : string * Point) (g : nx.DiGraph) :
  has_xy g (fst start_node) -> has_xy g (fst end_node) ->
  nx.nodes (add_segment road coords n i start_node end_node g) = nx.nodes g.
Proof.
  intros Hs He. unfold add_segment.
  destruct start_node as [s sc], end_node as [e ec]. simpl in Hs, He.
  destruct (String.eqb s e); [reflexivity |]. cbv zeta.
  set (d := nx.mk_edge _ _ _ _ _).
  pose proof (add_edge_nodes g s e d Hs He) as H1.
  destruct (String.eqb (traffic_direction road) "Both directions"); [| exact H1].
  rewrite get_edge_add_edge_same.
  rewrite add_edge_nodes; [exact H1 | |]; apply has_xy_add_edge; assumption.
Qed.

Lemma has_xy_same_nodes (g g' : nx.DiGraph) (n : string) :
  nx.nodes g' = nx.nodes g -> has_xy g n -> has_xy g' n.
Proof. intros He [d Hd]. exists d. rewrite He. exact Hd. Qed.

Lemma add_segments_nodes (road : Road) (coords : list Point) (n : nat)
    (road_nodes : list (string * Point)) :
  forall i g,
    (forall id p, In (id, p) road_nodes -> has_xy g id) ->
    nx.nodes (add_segments road coords n i road_nodes g) = nx.nodes g.
Proof.
  induction road_nodes as [| a rest IH]; intros i g Hn; [reflexivity |].
  destruct rest as [| b rest']; [reflexivity |].
  change (add_segments road coords n i (a :: b :: rest') g)
    with (add_segments road coords n (S i) (b :: rest')
            (add_segment road coords n i a b g)).
  assert (H1 : nx.nodes (add_segment road coords n i a b g) = nx.nodes g).
  { apply add_segment_nodes.
    - destruct a as [ida pa]. eapply Hn. left. reflexivity.
    - destruct b as [idb pb]. eapply Hn. right. left. reflexivity. }
  rewrite IH; [exact H1 |].
  intros id p Hin. apply (has_xy_same_nodes g _ id H1).
  eapply Hn. right. exact Hin.
Qed.

Section Complete.

Variable round2 : R -> R.
Variable junctions : list Junction.

Lemma add_junctions_complete (js : list Junction) :
  forall st,
    nodes_complete (G st) -> nodes_complete (G (add_junctions round2 js st)).
Proof.
  induction js as [| j js IH]; intros st Hc; simpl; [exact Hc |].
  destruct (junction_geometry j) as [x y]. apply IH. simpl.
  apply nodes_complete_add_node. exact Hc.
Qed.

Lemma collect_road_nodes_complete (coords : list Point) :
  forall n i st road_nodes st' road_nodes',
    collect_road_nodes round2 junctions n i coords st road_nodes
      = (st', road_nodes') ->
    nodes_complete (G st) -> nodes_complete (G st').
Proof.
  induction coords as [| [x y] coords IH];
    intros n i st rn st' rn' Hc Hcomp; cbn [collect_road_nodes] in Hc.
  - injection Hc as <- _. exact Hcomp.
  - destruct (nx.get key_eqb (rounded_key round2 (x, y)) (junction_points st)).
    { eapply IH; eassumption. }
    destruct (kd_query junctions (x, y)) as [[distance idx] |].
    2: { injection Hc as <- _. exact Hcomp. }
    destruct (Rleb distance 1).
    { destruct (nth_error junctions idx).
      - eapply IH; eassumption.
      - injection Hc as <- _. exact Hcomp. }
    destruct ((i =? 0)%nat || (i =? n - 1)%nat
              || (i mod Nat.max 1 (n / 10) =? 0)%nat).
    + eapply IH; [exact Hc |]. simpl. apply nodes_complete_add_node. exact Hcomp.
    + eapply IH; eassumption.
Qed.

Lemma process_road_complete (st : BuildState) (road : Road) :
  ids_ok junctions st -> nodes_complete (G st) ->
  nodes_complete (G (process_road round2 junctions st road)).
Proof.
  intros Hids Hcomp. unfold process_road.
  destruct (geometry road) as [coords |]; [| exact Hcomp].
  destruct (List.length coords <? 2)%nat; [exact Hcomp |].
  destruct (collect_road_nodes round2 junctions (List.length coords) 0 coords st [])
    as [st' road_nodes] eqn:Hc.
  pose proof (collect_road_nodes_complete _ _ _ _ _ _ _ Hc Hcomp) as Hcomp'.
  apply collect_road_nodes_ids in Hc; [| exact Hids | intros id p []].
  destruct Hc as (_ & _ & Hrn & _).
  destruct (List.length road_nodes <? 2)%nat; [exact Hcomp' |].
  simpl. intros n d Hin. rewrite add_segments_nodes in Hin by exact Hrn.
  eapply Hcomp'. exact Hin.
Qed.

Lemma process_roads_complete (roads rs : list Road) :
  incl rs roads ->
  forall st,
    ids_ok junctions st -> edges_ok roads (G st) -> nodes_complete (G st) ->
    ids_ok junctions (process_roads round2 junctions rs st) /\
    nodes_complete (G (process_roads round2 junctions rs st)).
Proof.
  unfold process_roads.
  induction rs as [| road rs IH]; intros Hincl st Hids Hok Hcomp; simpl;
    [split; assumption |].
  destruct (process_road_ok round2 junctions roads st road) as [Hids' Hok'];
    try assumption.
  { apply Hincl. left. reflexivity. }
  apply IH; try assumption.
  - intros r Hr. apply Hincl. right. exact Hr.
  - apply process_road_complete; assumption.
Qed.

End Complete.

(** X18.  In a built graph every node carries coordinates, every junction
    of the input is a node, and there is at least one node: on a simulator
    over a built graph [find_nearest_node] raises nothing and always finds
    a node. *)
Theorem X18_built_nodes_complete :
  forall (round2 : R -> R) (is_strongly_connected : nx.DiGraph -> bool)
         (largest_cc_len : nx.DiGraph -> nat)
         (roads : list Road) (junctions : list Junction)
         (g : nx.DiGraph) (printed : list Line),
    create_road_network_graph round2 is_strongly_connected largest_cc_len
      roads junctions = Built g printed ->
    nodes_complete g /\
    (forall j, In j junctions -> has_xy g ("J_" ++ node_id j)) /\
    (forall (s : VehicleSimulator) (point : Point),
       graph s = g -> exists n, find_nearest_node s point = inl (Some n)).
Proof.
  intros round2 isc lcc roads junctions g printed Hb.
  assert (Hnodes : nx.nodes g <> []).
  { unfold create_road_network_graph in Hb.
    destruct junctions as [| j js]; [discriminate |].
    destruct (nx.number_of_nodes _ =? 0)%nat eqn:E; [discriminate |].
    apply Nat.eqb_neq in E.
    destruct (isc _); injection Hb as <- _; unfold nx.number_of_nodes in E;
      intros Hnil; rewrite Hnil in E; apply E; reflexivity. }
  apply built_graph in Hb. subst g. unfold build_state in *.
  destruct (add_junctions_ids round2 junctions (mk_build nx.empty [] 0))
    as (Hjp & _ & Hj & He); [intros k id [] |].
  destruct (process_roads_complete round2 junctions roads roads (incl_refl _)
              (add_junctions round2 junctions (mk_build nx.empty [] 0)))
    as [Hids Hcomp].
  - split; assumption.
  - intros u v d Hin. rewrite He in Hin. destruct Hin.
  - apply add_junctions_complete. intros n d [].
  - split; [exact Hcomp |]. split; [apply Hids |].
    intros s point Hs. unfold find_nearest_node. rewrite Hs.
    destruct (nearest_scan_first point _ Hcomp None) as (r & Hr & Hspec).
    rewrite Hr. destruct r as [[d n] |].
    + exists n. reflexivity.
    + destruct Hspec as [_ Hnil]. contradiction.
Qed.

Lemma X18_witness :
  nodes_complete examples.graph_AB /\
  (forall j, In j examples.junctions_AB ->
     has_xy examples.graph_AB ("J_" ++ node_id j)) /\
  (forall (s : VehicleSimulator) (point : Point),
     graph s = examples.graph_AB ->
     exists n, find_nearest_node s point = inl (Some n)).
Proof.
  apply (X18_built_nodes_complete examples.exact examples.connected
           examples.no_component [examples.road_AB] examples.junctions_AB
           examples.graph_AB
           [Adding_junctions; Creating_spatial_index; Processing_roads;
            Created_graph 2 2]).
  exact build_AB.
Defined.

(** ** update_police_patrols *)


(** ** The answers of the dispatch handler *)

(** X20.  The dispatch handler answers with a response or with an HTTP
    error of status 404, 400 or 500.  It answers 404 exactly when no
    vehicle is available for the requested type, and an answer of 404 or
    400 leaves fleet and history as they were. *)
Theorem X20_dispatch_answers :
  forall (proj : R -> R -> Point)
         (sp : nx.DiGraph -> option string -> option string -> list string + exn)
         (now : string) (request : DispatchRequest) (c : VehicleController),
    (forall e,
       snd (api.dispatch_vehicle proj sp now request c) = inr e ->
       exists code detail,
         e = HTTPException code detail /\
         (code = 404%nat \/ code = 400%nat \/ code = 500%nat) /\
         (code <> 500%nat -> fst (api.dispatch_vehicle proj sp now request c) = c)) /\
    (get_available_vehicles (simulator c) (Some (request_vehicle_type request)) None
       = [] <->
     snd (api.dispatch_vehicle proj sp now request c)
       = inr (HTTPException 404
                ("No available " ++ request_vehicle_type request ++ " vehicles"))).
Proof.
  intros proj sp now request c. unfold api.dispatch_vehicle, internal_error.
  cbv zeta. destruct (proj _ _) as [x y].
  destruct (get_available_vehicles _ _ _) as [| first others]; simpl.
  - split.
    + intros e H. injection H as <-. do 2 eexists.
      split; [reflexivity |]. split; [left; reflexivity | reflexivity].
    + split; reflexivity.
  - destruct (find_nearest_node _ _) as [a | e1]; simpl.
    2: { split; [| split; discriminate].
         intros e H. injection H as <-. do 2 eexists.
         split; [reflexivity |]. split; [auto | intros H; contradiction]. }
    destruct (find_nearest_node _ _) as [b | e2]; simpl.
    2: { split; [| split; discriminate].
         intros e H. injection H as <-. do 2 eexists.
         split; [reflexivity |]. split; [auto | intros H; contradiction]. }
    destruct (sp _ _ _) as [route | e3].
    2: { destruct e3; simpl; (split; [| split; discriminate]);
           intros e H; injection H as <-; do 2 eexists;
           (split; [reflexivity |]); split; auto; intros H; try contradiction;
           reflexivity. }
    destruct (vehicle_controller.dispatch_vehicle _ _ _ _ _) as [c1 [e4 |]]; simpl.
    { split; [| split; discriminate].
      intros e H. injection H as <-. do 2 eexists.
      split; [reflexivity |]. split; [auto | intros H; contradiction]. }
    destruct (route_travel_time _ _ _) as [total | e5]; simpl.
    + split; [intros e H; discriminate | split; discriminate].
    + split; [| split; discriminate].
      intros e H. injection H as <-. do 2 eexists.
      split; [reflexivity |]. split; [auto | intros H; contradiction].
Qed.
